(** * zfs-backup-restore: a shallow embedding of the backup and restore scripts

    The Python sources [config.py], [compression.py], [backup.py] and
    [restore.py] are embedded as Rocq functions.  Pure helpers become pure
    functions; code that runs external tools, prints, sleeps or raises is
    written in a small state-and-exception monad [M] over a [state] that
    holds the answers of the external tools together with the trace of
    everything the scripts did. *)

From Stdlib Require Import String Ascii List ZArith Bool Lia.
From Stdlib Require Import Permutation Sorted DecimalString.
Import ListNotations.

Local Open Scope string_scope.
Local Open Scope list_scope.
Local Open Scope Z_scope.

(** ** Python values *)

(** The exceptions the scripts can see. *)
Inductive exn : Type :=
| KeyboardInterrupt
| CalledProcessError (returncode : Z) (stderr : string)
| ValueError
| IndexError
| KeyError
| ProcessLookupError
| SystemExit (code : Z).

(** The result of evaluating a Python expression or statement. *)
Inductive outcome (A : Type) : Type :=
| Returned (a : A)
| Raised (e : exn).

Arguments Returned {A} a.
Arguments Raised {A} e.

Definition outcome_bind {A B} (o : outcome A) (k : A -> outcome B) : outcome B :=
  match o with
  | Returned a => k a
  | Raised e => Raised e
  end.

(** [l[i]] for a non-negative index. *)
Definition getitem {A} (l : list A) (i : nat) : outcome A :=
  match nth_error l i with
  | Some a => Returned a
  | None => Raised IndexError
  end.

(** [l[:k]] : a negative bound counts from the end. *)
Definition slice_to {A} (l : list A) (k : Z) : list A :=
  if k <? 0
  then firstn (Z.to_nat (Z.max 0 (Z.of_nat (length l) + k))) l
  else firstn (Z.to_nat k) l.

(** [l[-1]] guarded by [if l], as in [snapshots[-1] if snapshots else None]. *)
Definition last_or_none {A} (l : list A) : option A :=
  match l with
  | [] => None
  | _ => nth_error l (length l - 1)
  end.

(** [str(n)] for an integer. *)
Definition str_of_Z (n : Z) : string := NilZero.string_of_int (Z.to_int n).

(** ** Python string methods *)

Module str.

Definition startswith (s pre : string) : bool := String.prefix pre s.

Fixpoint endswith (s suf : string) : bool :=
  String.eqb s suf ||
  match s with
  | EmptyString => false
  | String _ s' => endswith s' suf
  end.

(** [needle in s] *)
Fixpoint contains (needle s : string) : bool :=
  String.prefix needle s ||
  match s with
  | EmptyString => false
  | String _ s' => contains needle s'
  end.

(** Whitespace of [str.isspace] among the first 128 code points. *)
Definition isspace (c : ascii) : bool :=
  let n := nat_of_ascii c in
  ((9 <=? n) && (n <=? 13) || (28 <=? n) && (n <=? 32))%nat.

Fixpoint lstrip (s : string) : string :=
  match s with
  | EmptyString => EmptyString
  | String c s' => if isspace c then lstrip s' else s
  end.

Fixpoint rstrip (s : string) : string :=
  match s with
  | EmptyString => EmptyString
  | String c s' =>
      let r := rstrip s' in
      if isspace c && String.eqb r EmptyString then EmptyString else String c r
  end.

Definition strip (s : string) : string := rstrip (lstrip s).

(** [s.split(sep)] scans left to right; [skip] counts the characters of a
    separator occurrence still to be dropped, [cur] is the piece being read. *)
Fixpoint split_from (sep s : string) (skip : nat) (cur : string) : list string :=
  match s with
  | EmptyString => [cur]
  | String c s' =>
      match skip with
      | S k => split_from sep s' k cur
      | O =>
          if String.prefix sep s
          then cur :: split_from sep s' (String.length sep - 1) EmptyString
          else split_from sep s' 0 (cur ++ String c EmptyString)%string
      end
  end.

Definition split (s sep : string) : outcome (list string) :=
  match sep with
  | EmptyString => Raised ValueError
  | _ => Returned (split_from sep s 0 EmptyString)
  end.

(** [s.split(c, 1)] for a one-character separator. *)
Fixpoint split1 (s : string) (c : ascii) : list string :=
  match s with
  | EmptyString => [EmptyString]
  | String a s' =>
      if Ascii.eqb a c then [EmptyString; s']
      else match split1 s' c with
           | hd :: tl => String a hd :: tl
           | [] => []
           end
  end.

(** The last occurrence of [c] in [s], as the text before and after it. *)
Fixpoint rpartition (s : string) (c : ascii) : option (string * string) :=
  match s with
  | EmptyString => None
  | String a s' =>
      match rpartition s' c with
      | Some (l, r) => Some (String a l, r)
      | None => if Ascii.eqb a c then Some (EmptyString, s') else None
      end
  end.

(** [s.rsplit(c, 1)] for a one-character separator. *)
Definition rsplit1 (s : string) (c : ascii) : list string :=
  match rpartition s c with
  | Some (l, r) => [l; r]
  | None => [s]
  end.

(** [s.lower()] on the letters A to Z. *)
Definition lower_char (c : ascii) : ascii :=
  let n := nat_of_ascii c in
  if ((65 <=? n) && (n <=? 90))%nat then ascii_of_nat (n + 32) else c.

Fixpoint lower (s : string) : string :=
  match s with
  | EmptyString => EmptyString
  | String c s' => String (lower_char c) (lower s')
  end.

End str.

(** ** datetime *)

Module datetime.

Record t : Type := mk {
  year : Z; month : Z; day : Z;
  hour : Z; minute : Z; second : Z;
  microsecond : Z
}.

Definition is_leap (y : Z) : bool :=
  (y mod 4 =? 0) && (negb (y mod 100 =? 0) || (y mod 400 =? 0)).

Definition days_in_month (y m : Z) : Z :=
  if m =? 2 then (if is_leap y then 29 else 28)
  else if (m =? 4) || (m =? 6) || (m =? 9) || (m =? 11) then 30
  else 31.

(** The checks of the [datetime] constructor. *)
Definition valid (d : t) : bool :=
  (1 <=? year d) && (year d <=? 9999) &&
  (1 <=? month d) && (month d <=? 12) &&
  (1 <=? day d) && (day d <=? days_in_month (year d) (month d)) &&
  (0 <=? hour d) && (hour d <=? 23) &&
  (0 <=? minute d) && (minute d <=? 59) &&
  (0 <=? second d) && (second d <=? 59) &&
  (0 <=? microsecond d) && (microsecond d <=? 999999).

Definition fields (d : t) : list Z :=
  [year d; month d; day d; hour d; minute d; second d; microsecond d].

(** Naive datetimes compare field by field, most significant first. *)
Fixpoint lex (a b : list Z) : comparison :=
  match a, b with
  | x :: a', y :: b' =>
      match x ?= y with
      | Eq => lex a' b'
      | c => c
      end
  | [], [] => Eq
  | [], _ :: _ => Lt
  | _ :: _, [] => Gt
  end.

Definition compare (a b : t) : comparison := lex (fields a) (fields b).

Definition ltb (a b : t) : bool :=
  match compare a b with Lt => true | _ => false end.

Definition gtb (a b : t) : bool := ltb b a.

Definition leb (a b : t) : bool := negb (ltb b a).

(** *** Decimal digits *)

Definition digit_char (d : Z) : ascii := ascii_of_nat (Z.to_nat (48 + d)).

Definition digit_val (c : ascii) : option Z :=
  let n := Z.of_nat (nat_of_ascii c) in
  if (48 <=? n) && (n <=? 57) then Some (n - 48) else None.

Definition pad2 (n : Z) : string :=
  String (digit_char (n / 10)) (String (digit_char (n mod 10)) EmptyString).

Definition pad4 (n : Z) : string :=
  String (digit_char (n / 1000))
    (String (digit_char (n / 100 mod 10)) (pad2 (n mod 100))).

(** *** Formats

    A format string is kept as the list of its directives and literal
    characters: ['%Y-%m-%d'] is [[dY; Lit "-"; dm; Lit "-"; dd]]. *)
Inductive directive : Type :=
| dY | dm | dd | dH | dM | dS
| Lit (c : ascii).

(** What [strftime] prints for one directive: a zero-padded decimal
    number, four digits for [%Y] and two for the others. *)
Definition render (x : directive) (d : t) : string :=
  match x with
  | dY => pad4 (year d)
  | dm => pad2 (month d)
  | dd => pad2 (day d)
  | dH => pad2 (hour d)
  | dM => pad2 (minute d)
  | dS => pad2 (second d)
  | Lit c => String c EmptyString
  end.

(** [d.strftime(fmt)] *)
Fixpoint strftime (d : t) (fmt : list directive) : string :=
  match fmt with
  | [] => EmptyString
  | x :: fmt' => (render x d ++ strftime d fmt')%string
  end.

(** *** Parsing

    [strptime] turns the format into one regular expression.  A directive
    is a group of alternatives tried in order, and a later part of the
    pattern that fails sends the matcher back to the next alternative: a
    pattern is therefore modelled by the list of all the ways it matches a
    prefix of the text, best first. *)
Definition matches (A : Type) : Type := string -> list (A * string).

Definition in_range (lo hi : Z) (c : ascii) : option Z :=
  match digit_val c with
  | Some d => if (lo <=? d) && (d <=? hi) then Some d else None
  | None => None
  end.

(** [[lo-hi]] *)
Definition one (lo hi : Z) : matches Z := fun s =>
  match s with
  | String a r =>
      match in_range lo hi a with
      | Some x => [(x, r)]
      | None => []
      end
  | EmptyString => []
  end.

(** [[lo1-hi1][lo2-hi2]] *)
Definition two (lo1 hi1 lo2 hi2 : Z) : matches Z := fun s =>
  match s with
  | String a (String b r) =>
      match in_range lo1 hi1 a, in_range lo2 hi2 b with
      | Some x, Some y => [(10 * x + y, r)]
      | _, _ => []
      end
  | _ => []
  end.

(** A space followed by [[lo-hi]]. *)
Definition space_one (lo hi : Z) : matches Z := fun s =>
  match s with
  | String a r => if Ascii.eqb a " " then one lo hi r else []
  | EmptyString => []
  end.

Definition orelse {A} (p q : matches A) : matches A := fun s => p s ++ q s.

Infix "<|>" := orelse (at level 50, left associativity).

(** [%Y] is [\d\d\d\d]. *)
Definition re_Y : matches Z := fun s =>
  flat_map (fun '(hi, r) => map (fun '(lo, r') => (100 * hi + lo, r')) (two 0 9 0 9 r))
           (two 0 9 0 9 s).

(** [%m] is [1[0-2]|0[1-9]|[1-9]]. *)
Definition re_m : matches Z := two 1 1 0 2 <|> two 0 0 1 9 <|> one 1 9.

(** [%d] is [3[0-1]|[1-2]\d|0[1-9]|[1-9]| [1-9]]. *)
Definition re_d : matches Z :=
  two 3 3 0 1 <|> two 1 2 0 9 <|> two 0 0 1 9 <|> one 1 9 <|> space_one 1 9.

(** [%H] is [2[0-3]|[0-1]\d|\d]. *)
Definition re_H : matches Z := two 2 2 0 3 <|> two 0 1 0 9 <|> one 0 9.

(** [%M] is [[0-5]\d|\d]. *)
Definition re_M : matches Z := two 0 5 0 9 <|> one 0 9.

(** [%S] is [6[0-1]|[0-5]\d|\d]. *)
Definition re_S : matches Z := two 6 6 0 1 <|> two 0 5 0 9 <|> one 0 9.

(** One directive read at the start of the text, stored in the fields
    found so far. *)
Definition read (x : directive) (acc : t) : matches t := fun s =>
  match x with
  | dY => map (fun '(v, r) =>
             (mk v (month acc) (day acc) (hour acc) (minute acc) (second acc) (microsecond acc), r))
            (re_Y s)
  | dm => map (fun '(v, r) =>
             (mk (year acc) v (day acc) (hour acc) (minute acc) (second acc) (microsecond acc), r))
            (re_m s)
  | dd => map (fun '(v, r) =>
             (mk (year acc) (month acc) v (hour acc) (minute acc) (second acc) (microsecond acc), r))
            (re_d s)
  | dH => map (fun '(v, r) =>
             (mk (year acc) (month acc) (day acc) v (minute acc) (second acc) (microsecond acc), r))
            (re_H s)
  | dM => map (fun '(v, r) =>
             (mk (year acc) (month acc) (day acc) (hour acc) v (second acc) (microsecond acc), r))
            (re_M s)
  | dS => map (fun '(v, r) =>
             (mk (year acc) (month acc) (day acc) (hour acc) (minute acc) v (microsecond acc), r))
            (re_S s)
  | Lit c =>
      match s with
      | String a r => if Ascii.eqb a c then [(acc, r)] else []
      | EmptyString => []
      end
  end.

(** The whole format matched at the start of the text. *)
Fixpoint match_format (fmt : list directive) (acc : t) : matches t := fun s =>
  match fmt with
  | [] => [(acc, s)]
  | x :: fmt' => flat_map (fun '(acc', r) => match_format fmt' acc' r) (read x acc s)
  end.

(** The fields of a text that names none: 1900-01-01 00:00:00. *)
Definition epoch : t := mk 1900 1 1 0 0 0 0.

(** [datetime.strptime(s, fmt)]: the first match of the format decides;
    it has to use up the text, and its fields have to make a date and time
    that exist.  Every failure is a [ValueError]. *)
Definition strptime (s : string) (fmt : list directive) : outcome t :=
  match match_format fmt epoch s with
  | (d, EmptyString) :: _ => if valid d then Returned d else Raised ValueError
  | (_, String _ _) :: _ => Raised ValueError
  | [] => Raised ValueError
  end.

Definition pad6 (n : Z) : string :=
  (pad2 (n / 10000) ++ pad2 (n / 100 mod 100) ++ pad2 (n mod 100))%string.

(** [str(d)]: the ISO format with a space between date and time, and the
    microseconds only when there are some. *)
Definition str (d : t) : string :=
  (pad4 (year d) ++ "-" ++ pad2 (month d) ++ "-" ++ pad2 (day d) ++ " "
     ++ pad2 (hour d) ++ ":" ++ pad2 (minute d) ++ ":" ++ pad2 (second d)
     ++ if (microsecond d =? 0)%Z then EmptyString else "." ++ pad6 (microsecond d))%string.

End datetime.

(** ** The world outside the scripts *)

(** What an external process leaves behind when it ends: its exit status
    and what it wrote, as text.  The tools write plain diagnostics, so
    [e.stderr.decode()] is the text itself. *)
Record completed : Type := mkCompleted {
  returncode : Z;
  stdout : string;
  stderr : string
}.

(** What the scripts do to the world, in order. *)
Inductive event : Type :=
| Print (msg : string)
| Run (cmd : string)
| Popen (cmd : string)
| Wait
| Killpg
| Sleep (seconds : Z).

(** The state a script runs in.  [procs n] is the result of the [n]-th
    external process that is run to its end; [sigterm] names the blocking call
    (counted by [ticks]) during which a termination signal arrives, if any;
    [new_snapshot] and [backup_process] are the two local variables of
    [main] in [backup.py] that its [except] clause reads: for
    [backup_process], [Some None] is a process whose exit status is not known
    yet. *)
Record state : Type := mkState {
  procs : nat -> completed;
  nproc : nat;
  sigterm : option nat;
  ticks : nat;
  clock : datetime.t;
  killpg_finds_no_process : bool;
  new_snapshot : option string;
  backup_process : option (option Z);
  log : list event
}.

Definition with_log (s : state) (l : list event) : state :=
  mkState (procs s) (nproc s) (sigterm s) (ticks s) (clock s)
          (killpg_finds_no_process s) (new_snapshot s) (backup_process s) l.

Definition with_nproc (s : state) (n : nat) : state :=
  mkState (procs s) n (sigterm s) (ticks s) (clock s)
          (killpg_finds_no_process s) (new_snapshot s) (backup_process s) (log s).

Definition with_ticks (s : state) (n : nat) : state :=
  mkState (procs s) (nproc s) (sigterm s) n (clock s)
          (killpg_finds_no_process s) (new_snapshot s) (backup_process s) (log s).

Definition with_new_snapshot (s : state) (v : option string) : state :=
  mkState (procs s) (nproc s) (sigterm s) (ticks s) (clock s)
          (killpg_finds_no_process s) v (backup_process s) (log s).

Definition with_backup_process (s : state) (v : option (option Z)) : state :=
  mkState (procs s) (nproc s) (sigterm s) (ticks s) (clock s)
          (killpg_finds_no_process s) (new_snapshot s) v (log s).

(** ** Statements: state and exceptions *)

Definition M (A : Type) : Type := state -> outcome A * state.

Definition ret {A} (a : A) : M A := fun s => (Returned a, s).

Definition bind {A B} (m : M A) (k : A -> M B) : M B := fun s =>
  match m s with
  | (Returned a, s') => k a s'
  | (Raised e, s') => (Raised e, s')
  end.

Definition raise {A} (e : exn) : M A := fun s => (Raised e, s).

Definition lift {A} (o : outcome A) : M A := fun s => (o, s).

Notation "x <- m ;; k" := (bind m (fun x => k))
  (at level 61, m at next level, right associativity).
Notation "m ;; k" := (bind m (fun _ => k))
  (at level 61, right associativity).

(** [try: body except ...: handler]; [handler e] is [None] when no clause
    names [e], which then goes on to the caller. *)
Definition try_except {A} (body : M A) (handler : exn -> option (M A)) : M A :=
  fun s =>
    match body s with
    | (Returned a, s') => (Returned a, s')
    | (Raised e, s') =>
        match handler e with
        | Some h => h s'
        | None => (Raised e, s')
        end
    end.

Definition emit (e : event) : M unit := fun s => (Returned tt, with_log s (log s ++ [e])).

Definition print (msg : string) : M unit := emit (Print msg).

Definition when (b : bool) (m : M unit) : M unit := if b then m else ret tt.

Definition LF : string := String "010"%char EmptyString.

(** A blocking call begins.  The handler that [main] installs for the
    termination signal prints and raises [KeyboardInterrupt]. *)
Definition tick : M unit := fun s =>
  let s' := with_ticks s (S (ticks s)) in
  match sigterm s with
  | Some n =>
      if Nat.eqb n (ticks s)
      then (print (LF ++ "Received signal 15, shutting down gracefully...") ;;
            raise KeyboardInterrupt) s'
      else (Returned tt, s')
  | None => (Returned tt, s')
  end.

Definition reap : M completed := fun s =>
  (Returned (procs s (nproc s)), with_nproc s (S (nproc s))).

(** [subprocess.run(cmd, shell=True, check=check, ...)] *)
Definition subprocess_run (cmd : string) (check : bool) : M completed :=
  emit (Run cmd) ;;
  tick ;;
  r <- reap ;;
  if check && negb (returncode r =? 0)
  then raise (CalledProcessError (returncode r) (stderr r))
  else ret r.

(** [time.sleep(seconds)] *)
Definition sleep (seconds : Z) : M unit := emit (Sleep seconds) ;; tick.

(** [for x in l: body(x)] *)
Fixpoint for_each {A} (l : list A) (body : A -> M unit) : M unit :=
  match l with
  | [] => ret tt
  | x :: l' => body x ;; for_each l' body
  end.

(** A loop that carries a value from one round to the next. *)
Fixpoint for_fold {A B} (l : list A) (body : B -> A -> M B) (acc : B) : M B :=
  match l with
  | [] => ret acc
  | x :: l' => acc' <- body acc x ;; for_fold l' body acc'
  end.

(** Truth value of [Optional[str]]: [None] and [''] are false. *)
Definition truthy (s : option string) : bool :=
  match s with
  | None => false
  | Some EmptyString => false
  | Some (String _ _) => true
  end.

(** ** Python dicts: keys in insertion order; a key set again keeps its
    place and takes the new value *)

Definition dict (V : Type) : Type := list (string * V).

Fixpoint dict_set {V} (d : dict V) (k : string) (v : V) : dict V :=
  match d with
  | [] => [(k, v)]
  | (k', v') :: d' =>
      if String.eqb k' k then (k', v) :: d' else (k', v') :: dict_set d' k v
  end.

Fixpoint dict_get {V} (d : dict V) (k : string) : option V :=
  match d with
  | [] => None
  | (k', v') :: d' => if String.eqb k' k then Some v' else dict_get d' k
  end.

(** [l.sort(key=key)] for keys that are datetimes.  The sort of Python is
    stable and compares with [<] only; every stable sort returns the same
    list, here computed by inserting the elements from left to right, each
    one behind the elements that are not greater. *)
Fixpoint insert_by {A} (key : A -> datetime.t) (x : A) (l : list A) : list A :=
  match l with
  | [] => [x]
  | y :: l' =>
      if datetime.ltb (key x) (key y) then x :: y :: l' else y :: insert_by key x l'
  end.

Definition sort_by {A} (key : A -> datetime.t) (l : list A) : list A :=
  fold_left (fun acc x => insert_by key x acc) l [].

(** ** config.py *)

Module config.

(** ['%Y-%m-%d_%H-%M-%S'] *)
Definition TIMESTAMP_FORMAT : list datetime.directive :=
  let L := datetime.Lit in
  [datetime.dY; L "-"%char; datetime.dm; L "-"%char; datetime.dd; L "_"%char;
   datetime.dH; L "-"%char; datetime.dM; L "-"%char; datetime.dS].

Record BackupConfig : Type := mkBackupConfig {
  zfs_dataset : string;
  snapshot_prefix : string;
  snapshot_retention : Z;
  rclone_remote : string;
  bucket_name : string;
  rclone_config_path : string;
  compressor : string
}.

End config.

(** ** compression.py *)

Module compression.

Record Compressor : Type := mkCompressor {
  name : string;
  compress_cmd : string;
  decompress_cmd : string;
  extension : string
}.

Definition gzip : Compressor := mkCompressor "gzip" "gzip -c" "gzip -d" "gz".
Definition pigz : Compressor := mkCompressor "pigz" "pigz -c" "pigz -d" "gz".
Definition zstd : Compressor := mkCompressor "zstd" "zstd -T0" "zstd -d" "zst".

Definition COMPRESSORS : list Compressor := [gzip; pigz; zstd].

Definition DEFAULT_COMPRESSOR : string := "pigz".

(** [{c.name: c for c in COMPRESSORS}] *)
Definition _by_name : dict Compressor :=
  fold_left (fun d c => dict_set d (name c) c) COMPRESSORS [].

(** [{c.extension: c for c in COMPRESSORS}] *)
Definition _by_extension : dict Compressor :=
  fold_left (fun d c => dict_set d (extension c) c) COMPRESSORS [].

(** [_by_name.get(name, _by_name[DEFAULT_COMPRESSOR])]: the default is
    looked up before [get] is called. *)
Definition get_compressor_by_name (name : string) : outcome Compressor :=
  match dict_get _by_name DEFAULT_COMPRESSOR with
  | None => Raised KeyError
  | Some dflt =>
      match dict_get _by_name name with
      | Some c => Returned c
      | None => Returned dflt
      end
  end.

Fixpoint first_by_suffix (items : dict Compressor) (filename : string)
  : option Compressor :=
  match items with
  | [] => None
  | (ext, compressor) :: items' =>
      if str.endswith filename ("." ++ ext)%string then Some compressor
      else first_by_suffix items' filename
  end.

Definition get_compressor_by_filename (filename : string) : option Compressor :=
  first_by_suffix _by_extension filename.

End compression.

(** ** backup.py *)

Module backup.
Import config compression.

Definition get_snapshots (config : BackupConfig) : M (list string) :=
  let cmd := ("zfs list -t snapshot -o name -s creation -r " ++ zfs_dataset config)%string in
  result <- subprocess_run cmd true ;;
  snapshots <- lift (str.split (str.strip (stdout result)) LF) ;;
  ret (filter (fun s => str.contains (zfs_dataset config ++ "@" ++ snapshot_prefix config)%string s)
              snapshots).

Definition create_snapshot (snapshot_name : string) : M unit :=
  let cmd := ("zfs snapshot " ++ snapshot_name)%string in
  _ <- subprocess_run cmd true ;;
  ret tt.

(** The pipeline is started and not waited for; the caller stores the
    process that is returned. *)
Definition backup_snapshot (config : BackupConfig) (snapshot_name : string)
           (last_snapshot : option string) : M (option Z) :=
  compressor <- lift (get_compressor_by_name (compressor config)) ;;
  cmds <- (if truthy last_snapshot then
             let last := match last_snapshot with Some l => l | None => EmptyString end in
             print ("Creating incremental backup from " ++ last ++ " to " ++ snapshot_name) ;;
             ret (("zfs send -v -c -i " ++ last ++ " " ++ snapshot_name)%string,
                  (rclone_remote config ++ ":" ++ bucket_name config ++ "/" ++ snapshot_name
                     ++ "-incremental." ++ extension compressor)%string)
           else
             print ("Creating full backup of " ++ snapshot_name) ;;
             ret (("zfs send -v -c " ++ snapshot_name)%string,
                  (rclone_remote config ++ ":" ++ bucket_name config ++ "/" ++ snapshot_name
                     ++ "-full." ++ extension compressor)%string)) ;;
  let '(zfs_cmd, remote_path) := cmds in
  let rclone_cmd := ("rclone --config " ++ rclone_config_path config ++ " rcat " ++ remote_path
                       ++ " --stats-one-line")%string in
  let full_cmd := ("set -o pipefail; " ++ zfs_cmd ++ " | " ++ compress_cmd compressor
                     ++ " | " ++ rclone_cmd)%string in
  print ("Running backup: " ++ full_cmd) ;;
  emit (Popen full_cmd) ;;
  ret None.

(** How one round of the retry loop ends. *)
Inductive flow : Type := Next | Break | Return.

(** The rounds of [for attempt in range(retries)] that are left. *)
Fixpoint destroy_attempts (snapshot_name : string) (silent : bool) (retries delay : Z)
         (attempts : list Z) : M unit :=
  match attempts with
  | [] => ret tt
  | attempt :: rest =>
      f <- try_except
             (let cmd := ("zfs destroy " ++ snapshot_name)%string in
              _ <- subprocess_run cmd true ;;
              when (negb silent)
                   (print ("Successfully destroyed snapshot " ++ snapshot_name)) ;;
              ret Return)
             (fun e =>
                match e with
                | CalledProcessError _ e_stderr =>
                    Some
                      (let stderr_output := str.strip e_stderr in
                       if str.contains "dataset is busy" stderr_output
                          && (attempt <? retries - 1)
                       then
                         when (negb silent)
                              (print ("Snapshot is busy, retrying in " ++ str_of_Z delay
                                        ++ "s (" ++ str_of_Z (attempt + 1) ++ "/"
                                        ++ str_of_Z (retries - 1) ++ ")...")) ;;
                         sleep delay ;;
                         ret Next
                       else
                         when (negb silent)
                              (print ("Failed to destroy snapshot " ++ snapshot_name ++ ": "
                                        ++ stderr_output)) ;;
                         ret Break)
                | _ => None
                end) ;;
      match f with
      | Next => destroy_attempts snapshot_name silent retries delay rest
      | Break => ret tt
      | Return => ret tt
      end
  end.

Definition range (n : Z) : list Z := map Z.of_nat (seq 0 (Z.to_nat n)).

Definition destroy_snapshot (snapshot_name : option string) (silent : bool) : M unit :=
  if negb (truthy snapshot_name) then ret tt
  else
    let snapshot_name := match snapshot_name with Some n => n | None => EmptyString end in
    when (negb silent) (print ("Destroying snapshot: " ++ snapshot_name)) ;;
    let retries := 5 in
    let delay := 2 in
    destroy_attempts snapshot_name silent retries delay (range retries).

Definition prune_snapshots (config : BackupConfig) : M unit :=
  if snapshot_retention config <=? 0 then
    print "Snapshot retention must be a positive number. Skipping pruning."
  else
    snapshots <- get_snapshots config ;;
    if Z.of_nat (length snapshots) >? snapshot_retention config then
      let snapshots_to_prune :=
        slice_to snapshots (Z.of_nat (length snapshots) - snapshot_retention config) in
      print ("Pruning " ++ str_of_Z (Z.of_nat (length snapshots_to_prune))
               ++ " old snapshots...") ;;
      for_each snapshots_to_prune (fun snapshot => destroy_snapshot (Some snapshot) true)
    else ret tt.

Definition set_new_snapshot (v : option string) : M unit :=
  fun s => (Returned tt, with_new_snapshot s v).

Definition set_backup_process (v : option (option Z)) : M unit :=
  fun s => (Returned tt, with_backup_process s v).

(** [backup_process.wait()] *)
Definition wait : M Z :=
  emit Wait ;;
  tick ;;
  r <- reap ;;
  set_backup_process (Some (Some (returncode r))) ;;
  ret (returncode r).

(** [os.killpg(os.getpgid(backup_process.pid), signal.SIGTERM)] *)
Definition killpg : M unit :=
  emit Killpg ;;
  fun s => if killpg_finds_no_process s then (Raised ProcessLookupError, s)
           else (Returned tt, s).

Definition sys_exit (code : Z) : M unit := raise (SystemExit code).

(** [main], from the point where the arguments and the configuration have
    been read: [full] is [args.full]. *)
Definition main (full : bool) (config : BackupConfig) : M unit :=
  set_new_snapshot None ;;
  set_backup_process None ;;
  try_except
    (snapshots <- get_snapshots config ;;
     let latest_snapshot := last_or_none snapshots in
     latest_snapshot <-
       (if full then
          print "Full backup forced by command-line argument." ;; ret None
        else ret latest_snapshot) ;;
     timestamp <- (fun s => (Returned (datetime.strftime (clock s) TIMESTAMP_FORMAT), s)) ;;
     let new := (zfs_dataset config ++ "@" ++ snapshot_prefix config ++ timestamp)%string in
     set_new_snapshot (Some new) ;;
     create_snapshot new ;;
     p <- backup_snapshot config new latest_snapshot ;;
     set_backup_process (Some p) ;;
     rc <- wait ;;
     if rc =? 0 then
       print "Backup successful!" ;;
       prune_snapshots config
     else
       print ("Backup failed with exit code " ++ str_of_Z rc) ;;
       destroy_snapshot (Some new) false)
    (fun e =>
       match e with
       | KeyboardInterrupt =>
           Some
             (print (LF ++ "Backup interrupted by user or system.") ;;
              running <- (fun s => (Returned (match backup_process s with
                                               | Some None => true
                                               | _ => false
                                               end), s)) ;;
              when running
                   (print "Terminating backup process group..." ;;
                    try_except
                      (killpg ;; _ <- wait ;; ret tt)
                      (fun e' =>
                         match e' with
                         | ProcessLookupError => Some (print "Backup process already finished.")
                         | _ => None
                         end)) ;;
              name <- (fun s => (Returned (new_snapshot s), s)) ;;
              destroy_snapshot name false ;;
              sys_exit 1)
       | _ => None
       end).

End backup.

(** ** restore.py *)

Module restore.
Import config compression.

Inductive BackupType : Type := FULL | INCREMENTAL.

(** [BackupType(value)] *)
Definition BackupType_of (value : string) : outcome BackupType :=
  if String.eqb value "full" then Returned FULL
  else if String.eqb value "incremental" then Returned INCREMENTAL
  else Raised ValueError.

Definition BackupType_eqb (a b : BackupType) : bool :=
  match a, b with
  | FULL, FULL => true
  | INCREMENTAL, INCREMENTAL => true
  | _, _ => false
  end.

Record RcloneFile : Type := mkRcloneFile {
  Path : string;
  Name : string;
  Size : Z;
  MimeType : string;
  ModTime : string;
  IsDir : bool
}.

Record BackupInfo : Type := mkBackupInfo {
  path : string;
  snapshot_name : string;
  timestamp : datetime.t;
  type : BackupType;
  size : Z
}.

(** [a, b = l]: a [ValueError] unless [l] has two elements. *)
Definition unpack2 {A} (l : list A) : outcome (A * A) :=
  match l with
  | [a; b] => Returned (a, b)
  | _ => Raised ValueError
  end.

(** One round of the loop over the listing; [dataset_backups] is the list
    built so far, and a round that ends in [continue] returns it as it is. *)
Definition chain_loop_body (config : BackupConfig) (dataset_backups : list BackupInfo)
           (b : RcloneFile) : M (list BackupInfo) :=
  let path := Path b in
  if negb (str.startswith path (zfs_dataset config ++ "@" ++ snapshot_prefix config)%string)
  then ret dataset_backups
  else
    let parts := str.rsplit1 path "-"%char in
    if negb (Nat.eqb (length parts) 2) then ret dataset_backups
    else
      parts_1 <- lift (getitem parts 1) ;;
      pair <- lift (unpack2 (firstn 2 (str.split1 parts_1 "."%char ++ [EmptyString]))) ;;
      let backup_type_str := fst pair in
      parsed_type <-
        try_except
          (backup_type <- lift (BackupType_of backup_type_str) ;; ret (Some backup_type))
          (fun e =>
             match e with
             | ValueError =>
                 Some (print ("Could not parse backup type from: " ++ path) ;; ret None)
             | _ => None
             end) ;;
      match parsed_type with
      | None => ret dataset_backups
      | Some backup_type =>
          try_except
            (snapshot_name <- lift (getitem parts 0) ;;
             pieces <- lift (str.split snapshot_name (snapshot_prefix config)) ;;
             timestamp_str <- lift (getitem pieces 1) ;;
             timestamp <- lift (datetime.strptime timestamp_str TIMESTAMP_FORMAT) ;;
             ret (dataset_backups
                    ++ [mkBackupInfo path snapshot_name timestamp backup_type (Size b)]))
            (fun e =>
               match e with
               | ValueError | IndexError =>
                   Some (print ("Could not parse timestamp from: " ++ path) ;;
                         ret dataset_backups)
               | _ => None
               end)
      end.

Definition is_full (b : BackupInfo) : bool := BackupType_eqb (type b) FULL.

Definition is_incremental (b : BackupInfo) : bool := BackupType_eqb (type b) INCREMENTAL.

Definition find_backup_chain (backups : list RcloneFile) (config : BackupConfig)
  : M (option BackupInfo * list BackupInfo) :=
  dataset_backups <- for_fold backups (chain_loop_body config) [] ;;
  match dataset_backups with
  | [] => ret (None, [])
  | _ :: _ =>
      let dataset_backups := sort_by timestamp dataset_backups in
      let last_full_backup := find is_full (rev dataset_backups) in
      match last_full_backup with
      | None => ret (None, [])
      | Some last_full_backup =>
          let incremental_backups :=
            filter (fun backup =>
                      is_incremental backup
                      && datetime.gtb (timestamp backup) (timestamp last_full_backup))
                   dataset_backups in
          ret (Some last_full_backup, incremental_backups)
      end
  end.

Definition restore_backup (config : BackupConfig) (backup_path target_dataset : string)
  : M bool :=
  let remote_path :=
    (rclone_remote config ++ ":" ++ bucket_name config ++ "/" ++ backup_path)%string in
  let compressor := get_compressor_by_filename backup_path in
  let decompress_cmd := option_map decompress_cmd compressor in
  let rclone_cmd :=
    ("rclone --config " ++ rclone_config_path config ++ " cat " ++ remote_path)%string in
  let zfs_cmd := ("zfs receive -F " ++ target_dataset)%string in
  full_cmd <-
    (if truthy decompress_cmd then
       let d := match decompress_cmd with Some d => d | None => EmptyString end in
       ret ("set -o pipefail; " ++ rclone_cmd ++ " | " ++ d ++ " | " ++ zfs_cmd)%string
     else
       print ("Warning: Unknown compression for " ++ backup_path
                ++ ", attempting to restore without decompression.") ;;
       ret ("set -o pipefail; " ++ rclone_cmd ++ " | " ++ zfs_cmd)%string) ;;
  print (LF ++ "Running restore for " ++ backup_path ++ ":") ;;
  print ("  " ++ full_cmd) ;;
  try_except
    (_ <- subprocess_run full_cmd true ;;
     print ("Successfully restored " ++ backup_path) ;;
     ret true)
    (fun e =>
       match e with
       | CalledProcessError rc _ =>
           Some (print ("Error restoring " ++ backup_path ++ ": Command '" ++ full_cmd
                          ++ "' returned non-zero exit status " ++ str_of_Z rc ++ ".") ;;
                 ret false)
       | _ => None
       end).

Definition sys_exit (code : Z) : M unit := raise (SystemExit code).

(** [main], from the point where the arguments and the configuration have
    been read.  Three things that [main] uses are left open: the call of
    [list_backups], which runs [rclone lsjson] and decodes its JSON; the
    text that [human_readable_size] makes of a size with floating-point
    arithmetic; and the line that the user types at the prompt. *)
Section Main.
Variable list_backups : BackupConfig -> M (list RcloneFile).
Variable human_readable_size : Z -> string.
Variable stdin_line : string.

(** [input(prompt)] *)
Definition input (prompt : string) : M string := print prompt ;; ret stdin_line.

Definition main (config : BackupConfig) (target_dataset : string) : M unit :=
  print "Configuration loaded." ;;
  print ("Target dataset: " ++ target_dataset) ;;
  backups <- list_backups config ;;
  print ("Found " ++ str_of_Z (Z.of_nat (length backups)) ++ " remote files.") ;;
  chain <- find_backup_chain backups config ;;
  let '(last_full, incrementals) := chain in
  match last_full with
  | None =>
      print "No full backup found. Cannot proceed with restore." ;;
      sys_exit 1
  | Some last_full =>
      print (LF ++ "Backup chain to be restored:") ;;
      print ("  Full: " ++ path last_full ++ " (" ++ datetime.str (timestamp last_full)
               ++ ") - " ++ human_readable_size (size last_full)) ;;
      total_size <-
        for_fold incrementals
          (fun total_size inc =>
             print ("  Inc:  " ++ path inc ++ " (" ++ datetime.str (timestamp inc)
                      ++ ") - " ++ human_readable_size (size inc)) ;;
             ret (total_size + size inc))
          (size last_full) ;;
      print (LF ++ "Total estimated size to download: " ++ human_readable_size total_size) ;;
      print ("This will restore the backups to '" ++ target_dataset ++ "'.") ;;
      print "WARNING: This will destroy any existing data in the target dataset." ;;
      confirm <- input "Are you sure you want to continue? (yes/no): " ;;
      if negb (String.eqb (str.lower confirm) "yes") then
        print "Restore cancelled." ;;
        sys_exit 0
      else
        restored <- restore_backup config (path last_full) target_dataset ;;
        if negb restored then
          print "Aborting due to error in full backup restore." ;;
          sys_exit 1
        else
          for_each incrementals
            (fun inc =>
               restored <- restore_backup config (path inc) target_dataset ;;
               if negb restored then
                 print ("Aborting due to error in incremental backup restore: " ++ path inc) ;;
                 sys_exit 1
               else ret tt) ;;
          print (LF ++ "Restore completed successfully!")
  end.

End Main.

End restore.

(** ** Vocabulary of the properties *)

(** What a run added to the trace: [s'] comes after [s] with the events
    [evs], and the answers of the outside world are the same. *)
Definition extends (s s' : state) (evs : list event) : Prop :=
  procs s' = procs s /\ sigterm s' = sigterm s /\ clock s' = clock s /\
  killpg_finds_no_process s' = killpg_finds_no_process s /\
  log s' = log s ++ evs.

Definition event_eqb (a b : event) : bool :=
  match a, b with
  | Print x, Print y => String.eqb x y
  | Run x, Run y => String.eqb x y
  | Popen x, Popen y => String.eqb x y
  | Wait, Wait => true
  | Killpg, Killpg => true
  | Sleep x, Sleep y => x =? y
  | _, _ => false
  end.

(** An external process that failed because the snapshot is in use, as
    [destroy_snapshot] recognises it. *)
Definition busy (r : completed) : bool :=
  negb (returncode r =? 0) && str.contains "dataset is busy" (str.strip (stderr r)).

Definition destroy_cmd (snapshot_name : string) : string :=
  ("zfs destroy " ++ snapshot_name)%string.

Definition list_cmd (config : config.BackupConfig) : string :=
  ("zfs list -t snapshot -o name -s creation -r " ++ config.zfs_dataset config)%string.

Definition skip_msg : string :=
  "Snapshot retention must be a positive number. Skipping pruning.".

(** The two ways in which [prune_snapshots] begins: the message that it
    skips, or the listing of the snapshots. *)
Definition prune_event (config : config.BackupConfig) (e : event) : bool :=
  event_eqb e (Print skip_msg) || event_eqb e (Run (list_cmd config)).

(** The events of a backup run that follow the wait for the pipeline. *)
Fixpoint after_wait (evs : list event) : list event :=
  match evs with
  | [] => []
  | Wait :: evs' => evs'
  | _ :: evs' => after_wait evs'
  end.

Definition pruning_invoked (config : config.BackupConfig) (evs : list event) : bool :=
  existsb (prune_event config) (after_wait evs).

Definition destroy_issued (snapshot_name : string) (evs : list event) : bool :=
  existsb (event_eqb (Run (destroy_cmd snapshot_name))) evs.

Definition is_run (e : event) : bool :=
  match e with Run _ => true | _ => false end.

Definition is_run_or_sleep (e : event) : bool :=
  match e with Run _ | Sleep _ => true | _ => false end.

(** The record that one entry of the listing adds to [dataset_backups] in
    [find_backup_chain], if it adds one. *)
Definition parse_entry (config : config.BackupConfig) (b : restore.RcloneFile)
  : option restore.BackupInfo :=
  let path := restore.Path b in
  if str.startswith path
       (config.zfs_dataset config ++ "@" ++ config.snapshot_prefix config)%string
  then
    match str.rpartition path "-"%char with
    | Some (snapshot_name, rest) =>
        match restore.BackupType_of (hd EmptyString (str.split1 rest "."%char)) with
        | Returned backup_type =>
            match str.split snapshot_name (config.snapshot_prefix config) with
            | Returned (_ :: timestamp_str :: _) =>
                match datetime.strptime timestamp_str config.TIMESTAMP_FORMAT with
                | Returned timestamp =>
                    Some (restore.mkBackupInfo path snapshot_name timestamp backup_type
                                               (restore.Size b))
                | Raised _ => None
                end
            | _ => None
            end
        | Raised _ => None
        end
    | None => None
    end
  else None.

(** The records of a whole listing, in the order of the listing. *)
Fixpoint parsed (config : config.BackupConfig) (backups : list restore.RcloneFile)
  : list restore.BackupInfo :=
  match backups with
  | [] => []
  | b :: backups' =>
      match parse_entry config b with
      | Some r => r :: parsed config backups'
      | None => parsed config backups'
      end
  end.

Definition parses_as_full (config : config.BackupConfig) (b : restore.RcloneFile) : bool :=
  match parse_entry config b with
  | Some r => restore.is_full r
  | None => false
  end.

(** The text between the last ['-'] of a path and the first ['.'] after it:
    the place of [full] or [incremental]. *)
Definition suffix_of (path : string) : option string :=
  match str.rpartition path "-"%char with
  | Some (_, rest) => Some (hd EmptyString (str.split1 rest "."%char))
  | None => None
  end.


(** The timestamp embedded in a path: what follows the first occurrence of
    the prefix in the part before the last ['-'], up to the next occurrence. *)
Definition timestamp_text (config : config.BackupConfig) (path : string) : option string :=
  match str.rpartition path "-"%char with
  | Some (snapshot_name, _) =>
      match str.split snapshot_name (config.snapshot_prefix config) with
      | Returned (_ :: timestamp_str :: _) => Some timestamp_str
      | _ => None
      end
  | None => None
  end.


(** What [parse_entry] adds, as a list. *)
Definition entry_records (config : config.BackupConfig) (b : restore.RcloneFile)
  : list restore.BackupInfo :=
  match parse_entry config b with
  | Some r => [r]
  | None => []
  end.

(** Ascending order of the keys, equal keys allowed. *)
Definition key_le {A} (key : A -> datetime.t) (a b : A) : Prop :=
  datetime.leb (key a) (key b) = true.

(** The incrementals that follow a full record. *)
Definition follows (full r : restore.BackupInfo) : bool :=
  restore.is_incremental r
  && datetime.gtb (restore.timestamp r) (restore.timestamp full).


(** The state after a run that added [evs] to the trace, ran [dp] more
    processes to their end and began [dt] more blocking calls. *)
Definition advance (s : state) (evs : list event) (dp dt : nat) : state :=
  mkState (procs s) (dp + nproc s) (sigterm s) (dt + ticks s) (clock s)
          (killpg_finds_no_process s) (new_snapshot s) (backup_process s) (log s ++ evs).

(** Events that are there only when [b] holds: the messages of a call that
    is not silent. *)
Definition only_if (b : bool) (evs : list event) : list event := if b then evs else [].

Definition is_print_or_popen (e : event) : bool :=
  match e with Print _ | Popen _ => true | _ => false end.

Definition is_wait (e : event) : bool :=
  match e with Wait => true | _ => false end.

(** The events of a call of [destroy_snapshot] on a snapshot. *)
Definition destroy_event (snapshot_name : string) (e : event) : bool :=
  match e with
  | Run c => String.eqb c (destroy_cmd snapshot_name)
  | Sleep _ => true
  | Print m =>
      String.prefix "Destroying snapshot: " m
      || String.prefix "Successfully destroyed snapshot " m
      || String.prefix "Snapshot is busy, retrying in " m
      || String.prefix "Failed to destroy snapshot " m
  | _ => false
  end.



(** The snapshot names that [get_snapshots] keeps from the output of
    [zfs list]. *)
Definition listed (config : config.BackupConfig) (out : string) : list string :=
  filter (fun s => str.contains (config.zfs_dataset config ++ "@"
                                   ++ config.snapshot_prefix config)%string s)
         (str.split_from LF (str.strip out) 0 EmptyString).

(** The name that [main] gives to the snapshot of a run started in [s]. *)
Definition new_snapshot_name (config : config.BackupConfig) (s : state) : string :=
  (config.zfs_dataset config ++ "@" ++ config.snapshot_prefix config
     ++ datetime.strftime (clock s) config.TIMESTAMP_FORMAT)%string.

Definition signal_msg : string :=
  (LF ++ "Received signal 15, shutting down gracefully...")%string.

Definition interrupted_msg : string :=
  (LF ++ "Backup interrupted by user or system.")%string.


(** ** Examples *)

Definition example_config : config.BackupConfig :=
  config.mkBackupConfig "A" "bk" 2 "remote" "bucket" "rclone.conf" "pigz".

Definition remote_file (path : string) (size : Z) : restore.RcloneFile :=
  restore.mkRcloneFile path path size "application/octet-stream" "2025-01-01T00:00:00Z" false.

Definition at_time (Y m d : Z) : datetime.t := datetime.mk Y m d 0 0 0 0.

(** An incremental (second in time), a full (first) and a newer full (third). *)
Definition listing_two_fulls : list restore.RcloneFile :=
  [remote_file "A@bk2024-06-01_00-00-00-incremental.gz" 20;
   remote_file "A@bk2024-01-01_00-00-00-full.gz" 10;
   remote_file "A@bk2025-01-01_00-00-00-full.zst" 30].

(** A full (first in time) and two incrementals (second and third), listed
    out of order. *)
Definition listing_one_chain : list restore.RcloneFile :=
  [remote_file "A@bk2024-03-01_00-00-00-incremental.gz" 30;
   remote_file "A@bk2024-01-01_00-00-00-full.gz" 10;
   remote_file "A@bk2024-02-01_00-00-00-incremental.gz" 20].

(** Two incrementals with no full before them. *)
Definition listing_incrementals_only : list restore.RcloneFile :=
  [remote_file "A@bk2024-03-01_00-00-00-incremental.gz" 30;
   remote_file "A@bk2024-02-01_00-00-00-incremental.gz" 20].




(** A world in which every external tool succeeds and prints nothing. *)
Definition quiet_state : state :=
  mkState (fun _ => mkCompleted 0 EmptyString EmptyString) 0 None 0
          (at_time 2025 1 1) false None None [].

(** The same world, with a termination signal during the [n]-th blocking
    call, counted from zero. *)
Definition interrupted_at (n : nat) : state :=
  mkState (procs quiet_state) 0 (Some n) 0 (clock quiet_state) false None None [].


(** A world in which [zfs list] names three snapshots, oldest first. *)
Definition three_snapshots_state : state :=
  mkState (fun _ => mkCompleted 0
                      ("A@bk2024-01-01_00-00-00" ++ LF ++ "A@bk2024-02-01_00-00-00" ++ LF
                         ++ "A@bk2024-03-01_00-00-00" ++ LF)
                      EmptyString)
          0 None 0 (at_time 2025 1 1) false None None [].

(** A world in which the third process, the pipeline of a backup run, exits
    with status 1 and every other tool succeeds. *)
Definition failing_pipeline_state : state :=
  mkState (fun n => mkCompleted (if Nat.eqb n 2 then 1 else 0) EmptyString EmptyString)
          0 None 0 (at_time 2025 1 1) false None None [].

(** ** Vocabulary of the further properties *)

(** No termination signal arrives during the blocking call that begins next. *)
Definition signal_now (s : state) : bool :=
  match sigterm s with
  | Some n => Nat.eqb n (ticks s)
  | None => false
  end.


(** The word for the type of a backup in the name of its remote object. *)
Definition type_word (ty : restore.BackupType) : string :=
  match ty with
  | restore.FULL => "full"
  | restore.INCREMENTAL => "incremental"
  end.

(** The name of the remote object in which [backup_snapshot] stores the
    stream of [snapshot_name]. *)
Definition object_name (snapshot_name : string) (ty : restore.BackupType)
           (c : compression.Compressor) : string :=
  (snapshot_name ++ "-" ++ type_word ty ++ "." ++ compression.extension c)%string.

(** The upload stage of the backup pipeline for an object name. *)
Definition upload_cmd (config : config.BackupConfig) (object : string) : string :=
  ("rclone --config " ++ config.rclone_config_path config ++ " rcat "
     ++ (config.rclone_remote config ++ ":" ++ config.bucket_name config ++ "/" ++ object)
     ++ " --stats-one-line")%string.

(** The pipeline of a full backup of [snapshot_name]. *)
Definition full_pipeline (config : config.BackupConfig) (c : compression.Compressor)
           (snapshot_name : string) : string :=
  ("set -o pipefail; " ++ ("zfs send -v -c " ++ snapshot_name) ++ " | "
     ++ compression.compress_cmd c ++ " | "
     ++ upload_cmd config (object_name snapshot_name restore.FULL c))%string.

(** The pipeline of an incremental backup from [last_snapshot]. *)
Definition incremental_pipeline (config : config.BackupConfig) (c : compression.Compressor)
           (last_snapshot snapshot_name : string) : string :=
  ("set -o pipefail; " ++ ("zfs send -v -c -i " ++ last_snapshot ++ " " ++ snapshot_name)
     ++ " | " ++ compression.compress_cmd c ++ " | "
     ++ upload_cmd config (object_name snapshot_name restore.INCREMENTAL c))%string.

(** The pipeline that a backup run starts, by the snapshot it builds on. *)
Definition pipeline (config : config.BackupConfig) (c : compression.Compressor)
           (latest : option string) (snapshot_name : string) : string :=
  match latest with
  | Some last_snapshot => incremental_pipeline config c last_snapshot snapshot_name
  | None => full_pipeline config c snapshot_name
  end.


(** The full record that is kept when the parsed records are read in the
    order of the listing: a full record replaces the one kept so far unless
    it is strictly older. *)
Definition later_full (best : option restore.BackupInfo) (r : restore.BackupInfo)
  : option restore.BackupInfo :=
  if restore.is_full r then
    match best with
    | Some f =>
        if datetime.ltb (restore.timestamp r) (restore.timestamp f) then best else Some r
    | None => Some r
    end
  else best.

Definition latest_full (records : list restore.BackupInfo) : option restore.BackupInfo :=
  fold_left later_full records None.

(** The command that [restore_backup] runs for a remote path. *)
Definition restore_cmd (config : config.BackupConfig) (backup_path target_dataset : string)
  : string :=
  let download :=
    ("rclone --config " ++ config.rclone_config_path config ++ " cat "
       ++ (config.rclone_remote config ++ ":" ++ config.bucket_name config ++ "/"
             ++ backup_path))%string in
  let receive := ("zfs receive -F " ++ target_dataset)%string in
  match compression.get_compressor_by_filename backup_path with
  | Some c => ("set -o pipefail; " ++ download ++ " | " ++ compression.decompress_cmd c
                 ++ " | " ++ receive)%string
  | None => ("set -o pipefail; " ++ download ++ " | " ++ receive)%string
  end.

(** The commands that a trace ran, in order. *)
Definition commands (evs : list event) : list string :=
  flat_map (fun e => match e with Run c => [c] | _ => [] end) evs.

(** A world like [quiet_state] in which the [n]-th external process fails. *)
Definition failing_at (n : nat) : state :=
  mkState (fun k => mkCompleted (if Nat.eqb k n then 1 else 0) EmptyString EmptyString)
          0 None 0 (at_time 2025 1 1) false None None [].


(** An entry of another dataset. *)
Definition foreign_file : restore.RcloneFile :=
  remote_file "B@bk2026-01-01_00-00-00-full.gz" 7.

(** The warning of [restore_backup] for a path with no known extension. *)
Definition unknown_compression_msg (backup_path : string) : string :=
  "Warning: Unknown compression for " ++ backup_path
    ++ ", attempting to restore without decompression.".

(** The chain as [find_backup_chain] computes it from the parsed records. *)
Definition chain_of (config : config.BackupConfig) (backups : list restore.RcloneFile)
  : option restore.BackupInfo * list restore.BackupInfo :=
  let sorted := sort_by restore.timestamp (parsed config backups) in
  match find restore.is_full (rev sorted) with
  | Some full => (Some full, filter (follows full) sorted)
  | None => (None, [])
  end.

(** The loop of the restore [main] over the incrementals. *)
Definition restore_loop (config : config.BackupConfig) (target_dataset : string)
           (incrementals : list restore.BackupInfo) : M unit :=
  for_each incrementals
    (fun inc =>
       restored <- restore.restore_backup config (restore.path inc) target_dataset ;;
       if negb restored then
         print ("Aborting due to error in incremental backup restore: " ++ restore.path inc) ;;
         restore.sys_exit 1
       else ret tt).

(** The restore commands of a list of records, in order. *)
Definition restore_cmds (config : config.BackupConfig) (target_dataset : string)
           (records : list restore.BackupInfo) : list string :=
  map (fun r => restore_cmd config (restore.path r) target_dataset) records.

(** The announcement of [backup_snapshot]. *)
Definition creating_msg (latest : option string) (snapshot_name : string) : string :=
  match latest with
  | Some last_snapshot =>
      "Creating incremental backup from " ++ last_snapshot ++ " to " ++ snapshot_name
  | None => "Creating full backup of " ++ snapshot_name
  end.

(** What a backup run does before it waits for the pipeline. *)
Definition before_wait (config : config.BackupConfig) (c : compression.Compressor)
           (full : bool) (latest : option string) (snapshot_name : string) : list event :=
  Run (list_cmd config)
  :: only_if full [Print "Full backup forced by command-line argument."]
  ++ [Run ("zfs snapshot " ++ snapshot_name);
      Print (creating_msg latest snapshot_name);
      Print ("Running backup: " ++ pipeline config c latest snapshot_name);
      Popen (pipeline config c latest snapshot_name)].

(** The [except KeyboardInterrupt] clause of the backup [main]. *)
Definition cleanup : M unit :=
  print (LF ++ "Backup interrupted by user or system.") ;;
  running <- (fun s => (Returned (match backup_process s with
                                   | Some None => true
                                   | _ => false
                                   end), s)) ;;
  when running
       (print "Terminating backup process group..." ;;
        try_except
          (backup.killpg ;; _ <- backup.wait ;; ret tt)
          (fun e' =>
             match e' with
             | ProcessLookupError => Some (print "Backup process already finished.")
             | _ => None
             end)) ;;
  name <- (fun s => (Returned (new_snapshot s), s)) ;;
  backup.destroy_snapshot name false ;;
  backup.sys_exit 1.

Definition on_interrupt (e : exn) : option (M unit) :=
  match e with
  | KeyboardInterrupt => Some cleanup
  | _ => None
  end.

(** What the backup [main] does once the pipeline runs. *)
Definition after_start (config : config.BackupConfig) (snapshot_name : string) : M unit :=
  rc <- backup.wait ;;
  if rc =? 0 then
    print "Backup successful!" ;;
    backup.prune_snapshots config
  else
    print ("Backup failed with exit code " ++ str_of_Z rc) ;;
    backup.destroy_snapshot (Some snapshot_name) false.

(** The state in which the backup [main] waits for the pipeline: two
    commands have run, [events] are logged and the pipeline is running. *)
Definition waiting (s : state) (events : list event) (snapshot_name : string) : state :=
  mkState (procs s) (2 + nproc s) (sigterm s) (2 + ticks s) (clock s)
          (killpg_finds_no_process s) (Some snapshot_name) (Some None) (log s ++ events).

(** The record of the newest full backup of [listing_two_fulls]. *)
Definition newest_full_record : restore.BackupInfo :=
  restore.mkBackupInfo "A@bk2025-01-01_00-00-00-full.zst" "A@bk2025-01-01_00-00-00"
                       (at_time 2025 1 1) restore.FULL 30.

(** The records of [listing_one_chain]. *)
Definition one_chain_full : restore.BackupInfo :=
  restore.mkBackupInfo "A@bk2024-01-01_00-00-00-full.gz" "A@bk2024-01-01_00-00-00"
                       (at_time 2024 1 1) restore.FULL 10.

Definition one_chain_incrementals : list restore.BackupInfo :=
  [restore.mkBackupInfo "A@bk2024-02-01_00-00-00-incremental.gz" "A@bk2024-02-01_00-00-00"
                        (at_time 2024 2 1) restore.INCREMENTAL 20;
   restore.mkBackupInfo "A@bk2024-03-01_00-00-00-incremental.gz" "A@bk2024-03-01_00-00-00"
                        (at_time 2024 3 1) restore.INCREMENTAL 30].

(** A remote that lists [backups], and sizes printed in bytes. *)
Definition returns_listing (backups : list restore.RcloneFile)
  : config.BackupConfig -> M (list restore.RcloneFile) :=
  fun _ => ret backups.

Definition bytes_text (size : Z) : string := str_of_Z size ++ " B".

(** The state of the restore [main] when it asks for the listing. *)
Definition restore_started (target_dataset : string) (s : state) : state :=
  advance s [Print "Configuration loaded."; Print ("Target dataset: " ++ target_dataset)] 0 0.


(** * Properties *)

(** Evaluation of the statements of [M] on a state, one layer at a time. *)
Ltac mrun :=
  cbv beta iota zeta delta
    [bind ret raise lift try_except emit print when tick reap subprocess_run sleep
     with_log with_nproc with_ticks with_new_snapshot with_backup_process advance only_if
     log procs nproc sigterm ticks clock killpg_finds_no_process new_snapshot backup_process
     fst snd option_map truthy negb andb].

(** Lists that differ by the bracketing of [++] and [::]. *)
Ltac list_norm :=
  repeat (cbn [app]; rewrite <- ?app_assoc, <- ?app_comm_cons); cbn [app].



(** ** Strings *)

Lemma endswith_refl (s : string) : str.endswith s s = true.
Proof.
  destruct s; simpl; [reflexivity|].
  now rewrite Ascii.eqb_refl, String.eqb_refl.
Qed.

Lemma endswith_append (a b suf : string) :
  str.endswith b suf = true -> str.endswith (a ++ b) suf = true.
Proof.
  intros H. induction a as [|c a IH]; simpl; [exact H|].
  rewrite IH. apply orb_true_r.
Qed.

Lemma prefix_nil s : String.prefix EmptyString s = true.
Proof. destruct s; reflexivity. Qed.

Lemma split1_cons s c : exists h t, str.split1 s c = h :: t.
Proof.
  induction s as [|a s IH]; simpl; [eauto|].
  destruct (Ascii.eqb a c); [eauto|].
  destruct IH as (h & t & ->). eauto.
Qed.

Lemma split_raises s sep e : str.split s sep = Raised e -> e = ValueError.
Proof. unfold str.split. destruct sep; congruence. Qed.

Lemma contains_nonempty pat x :
  pat <> EmptyString -> str.contains pat x = true -> truthy (Some x) = true.
Proof.
  intros Hp H. destruct x; [|reflexivity].
  destruct pat; [congruence|discriminate].
Qed.

(** ** Lists *)

Lemma filter_perm {A} (p : A -> bool) l l' :
  Permutation l l' -> Permutation (filter p l) (filter p l').
Proof.
  induction 1; simpl.
  - constructor.
  - destruct (p x); auto.
  - destruct (p x), (p y); auto. apply perm_swap.
  - etransitivity; eauto.
Qed.

Lemma find_rev_some {A} (p : A -> bool) l x :
  find p (rev l) = Some x ->
  exists l1 l2, l = (l1 ++ x :: l2)%list /\ p x = true /\ forall y, In y l2 -> p y = false.
Proof.
  induction l as [|a l IH] using rev_ind; simpl; [discriminate|].
  rewrite rev_app_distr. simpl.
  destruct (p a) eqn:E.
  - intros [= ->]. exists l, []. repeat split; auto. intros y [].
  - intros H. destruct (IH H) as (l1 & l2 & -> & Hx & Hl2).
    exists l1, (l2 ++ [a])%list. rewrite <- app_assoc. repeat split; auto.
    intros y Hy. apply in_app_or in Hy as [Hy|[<-|[]]]; auto.
Qed.

Lemma find_rev_none {A} (p : A -> bool) l :
  find p (rev l) = None -> forall y, In y l -> p y = false.
Proof.
  intros H y Hy. apply (find_none _ _ H). now apply in_rev in Hy.
Qed.

Lemma slice_to_incl {A} (l : list A) k x : In x (slice_to l k) -> In x l.
Proof.
  unfold slice_to. intros H.
  destruct (k <? 0);
    match type of H with In _ (firstn ?n _) =>
      rewrite <- (firstn_skipn n l); apply in_or_app; now left end.
Qed.

Lemma after_wait_app pre rest :
  forallb (fun e => negb (is_wait e)) pre = true ->
  after_wait (pre ++ Wait :: rest) = rest.
Proof.
  induction pre as [|e pre IH]; simpl; [reflexivity|].
  intros H. apply andb_prop in H as [He H]. destruct e; try discriminate; auto.
Qed.

(** ** compression.py *)

Section Compression.
Import compression.

Lemma by_extension_items : _by_extension = [("gz", pigz); ("zst", zstd)].
Proof. reflexivity. Qed.

Lemma first_by_suffix_in items filename c :
  first_by_suffix items filename = Some c -> In c (map snd items).
Proof.
  induction items as [|[ext c'] items IH]; simpl; [discriminate|].
  destruct (str.endswith filename _).
  - intros [= ->]. now left.
  - intros H. right. now apply IH.
Qed.

Lemma get_compressor_by_filename_gz filename :
  str.endswith filename ".gz" = true ->
  get_compressor_by_filename filename = Some pigz.
Proof.
  intros H. unfold get_compressor_by_filename. rewrite by_extension_items.
  simpl. now rewrite H.
Qed.

Lemma get_compressor_by_filename_not_gzip filename :
  get_compressor_by_filename filename <> Some gzip.
Proof.
  intros H. apply first_by_suffix_in in H. rewrite by_extension_items in H.
  simpl in H. destruct H as [H|[H|[]]]; discriminate H.
Qed.

Lemma get_compressor_by_name_returns name :
  exists c, get_compressor_by_name name = Returned c.
Proof.
  unfold get_compressor_by_name.
  change (dict_get _by_name DEFAULT_COMPRESSOR) with (Some pigz).
  destruct (dict_get _by_name name); eauto.
Qed.

End Compression.

(** ** The order of timestamps *)

Lemma lex_opp a : forall b, datetime.lex b a = CompOpp (datetime.lex a b).
Proof.
induction a as [|x a IH]; intros [|y b]; simpl; try reflexivity.
rewrite (Z.compare_antisym x y).
destruct (x ?= y); simpl; auto.
Qed.

Lemma lex_trans a : forall b c,
datetime.lex a b <> Gt -> datetime.lex b c <> Gt -> datetime.lex a c <> Gt.
Proof.
induction a as [|x a IH]; intros [|y b] [|z c]; simpl; try congruence.
destruct (Z.compare_spec x y), (Z.compare_spec y z), (Z.compare_spec x z);
  try congruence; try lia; subst; eauto.
Qed.

Lemma lex_refl a : datetime.lex a a = Eq.
Proof. induction a as [|x a IH]; simpl; [reflexivity|]. now rewrite Z.compare_refl. Qed.

Lemma leb_compare a b : datetime.leb a b = true <-> datetime.compare a b <> Gt.
Proof.
unfold datetime.leb, datetime.ltb, datetime.compare.
rewrite (lex_opp (datetime.fields a) (datetime.fields b)).
destruct (datetime.lex (datetime.fields a) (datetime.fields b)); simpl;
  split; congruence.
Qed.

Lemma leb_refl a : datetime.leb a a = true.
Proof. unfold datetime.leb, datetime.ltb, datetime.compare. now rewrite lex_refl. Qed.

Lemma leb_trans a b c :
datetime.leb a b = true -> datetime.leb b c = true -> datetime.leb a c = true.
Proof. rewrite !leb_compare. apply lex_trans. Qed.

Lemma ltb_leb a b : datetime.ltb a b = true -> datetime.leb a b = true.
Proof.
unfold datetime.leb, datetime.ltb, datetime.compare.
rewrite (lex_opp (datetime.fields a) (datetime.fields b)).
destruct (datetime.lex (datetime.fields a) (datetime.fields b)); simpl; congruence.
Qed.

Lemma ltb_false_leb a b : datetime.ltb a b = false -> datetime.leb b a = true.
Proof. unfold datetime.leb. now intros ->. Qed.

Lemma ltb_not_leb a b : datetime.ltb a b = true -> datetime.leb b a = false.
Proof. unfold datetime.leb. now intros ->. Qed.

(** ** Sorting *)

Section Sorting.
Context {A : Type} (key : A -> datetime.t).

Lemma insert_by_perm x l : Permutation (insert_by key x l) (x :: l).
Proof.
  induction l as [|y l IH]; simpl; [reflexivity|].
  destruct (datetime.ltb (key x) (key y)); [reflexivity|].
  rewrite IH. apply perm_swap.
Qed.

Lemma sort_from_perm l : forall acc,
  Permutation (fold_left (fun acc x => insert_by key x acc) l acc) (acc ++ l).
Proof.
  induction l as [|x l IH]; intros acc; simpl.
  - now rewrite app_nil_r.
  - rewrite IH, insert_by_perm. apply Permutation_middle.
Qed.

Lemma sort_by_perm l : Permutation (sort_by key l) l.
Proof. apply (sort_from_perm l []). Qed.

Lemma insert_by_sorted x l :
  StronglySorted (key_le key) l -> StronglySorted (key_le key) (insert_by key x l).
Proof.
  induction 1 as [|y l Hs IH Hy]; simpl.
  - repeat constructor.
  - destruct (datetime.ltb (key x) (key y)) eqn:E.
    + constructor; [now constructor|].
      constructor; [now apply ltb_leb|].
      rewrite Forall_forall in *. intros z Hz.
      eapply leb_trans; [apply ltb_leb, E|]. now apply Hy.
    + constructor; [exact IH|].
      rewrite Forall_forall in *. intros z Hz.
      apply (Permutation_in _ (insert_by_perm x l)) in Hz.
      destruct Hz as [<-|Hz]; [now apply ltb_false_leb|now apply Hy].
Qed.

Lemma sort_from_sorted l : forall acc,
  StronglySorted (key_le key) acc ->
  StronglySorted (key_le key) (fold_left (fun acc x => insert_by key x acc) l acc).
Proof.
  induction l as [|x l IH]; intros acc H; simpl; [exact H|].
  apply IH, insert_by_sorted, H.
Qed.

Lemma sort_by_sorted l : StronglySorted (key_le key) (sort_by key l).
Proof. apply sort_from_sorted. constructor. Qed.

Lemma filter_sorted p l : StronglySorted (key_le key) l -> StronglySorted (key_le key) (filter p l).
Proof.
  induction 1 as [|y l Hs IH Hy]; simpl; [constructor|].
  destruct (p y); [|exact IH].
  constructor; [exact IH|].
  rewrite Forall_forall in *. intros z Hz. apply filter_In in Hz. now apply Hy.
Qed.

End Sorting.

(** ** States and traces *)

Lemma extends_refl s : extends s s [].
Proof. unfold extends. rewrite app_nil_r. auto. Qed.

Lemma extends_print s msg : extends s (with_log s (log s ++ [Print msg])) [Print msg].
Proof. unfold extends. simpl. auto. Qed.

Lemma extends_trans s1 s2 s3 e1 e2 :
  extends s1 s2 e1 -> extends s2 s3 e2 -> extends s1 s3 (e1 ++ e2).
Proof.
  unfold extends. intros (P1 & G1 & C1 & K1 & L1) (P2 & G2 & C2 & K2 & L2).
  rewrite app_assoc, <- L1. repeat split; congruence.
Qed.

Lemma advance_advance s e1 p1 t1 e2 p2 t2 :
  advance (advance s e1 p1 t1) e2 p2 t2 = advance s (e1 ++ e2) (p2 + p1) (t2 + t1).
Proof.
  unfold advance. simpl. now rewrite !Nat.add_assoc, <- app_assoc.
Qed.

Lemma advance_nil s : advance s [] 0 0 = s.
Proof. destruct s. unfold advance. simpl. now rewrite app_nil_r. Qed.

Lemma print_then {A} msg (k : M A) s :
  (print msg ;; k) s = k (advance s [Print msg] 0 0).
Proof. destruct s. reflexivity. Qed.

Lemma subprocess_run_ok cmd check s :
  sigterm s = None -> returncode (procs s (nproc s)) = 0 ->
  subprocess_run cmd check s = (Returned (procs s (nproc s)), advance s [Run cmd] 1 1).
Proof.
  destruct s as [pr np sg tk ck kf ns bp lg]. simpl. intros -> E.
  mrun. rewrite E. simpl. now destruct check.
Qed.

Lemma subprocess_run_failed cmd s :
  sigterm s = None -> returncode (procs s (nproc s)) <> 0 ->
  subprocess_run cmd true s =
    (Raised (CalledProcessError (returncode (procs s (nproc s))) (stderr (procs s (nproc s)))),
     advance s [Run cmd] 1 1).
Proof.
  destruct s as [pr np sg tk ck kf ns bp lg]. simpl. intros -> E.
  mrun. apply Z.eqb_neq in E. rewrite E. reflexivity.
Qed.

Lemma subprocess_run_emits cmd check s :
  exists o s' evs, subprocess_run cmd check s = (o, s') /\ log s' = log s ++ Run cmd :: evs.
Proof.
  destruct s as [pr np sg tk ck kf ns bp lg]. unfold subprocess_run.
  mrun.
  destruct sg as [n|]; [destruct (Nat.eqb n tk)|];
    try destruct (returncode (pr np) =? 0); destruct check;
    eexists _, _, _; (split; [reflexivity|]); cbn [log]; list_norm; reflexivity.
Qed.

(** ** restore.py: the chain of backups *)

Section Restore.
Import config restore.

Lemma strptime_raises s fmt e : datetime.strptime s fmt = Raised e -> e = ValueError.
Proof.
  unfold datetime.strptime.
  destruct (datetime.match_format fmt datetime.epoch s) as [|[d [|c r]] l];
    [|destruct (datetime.valid d)|]; congruence.
Qed.

Lemma BackupType_of_raises v e : BackupType_of v = Raised e -> e = ValueError.
Proof.
  unfold BackupType_of.
  destruct (String.eqb v "full"); [discriminate|].
  destruct (String.eqb v "incremental"); congruence.
Qed.

(** One round of the loop adds what [parse_entry] says, prints at most a
    warning and raises nothing. *)
Lemma chain_loop_body_spec config acc b s :
  exists s' evs,
    chain_loop_body config acc b s = (Returned (acc ++ entry_records config b)%list, s')
    /\ extends s s' evs.
Proof.
  unfold chain_loop_body, entry_records, parse_entry, str.rsplit1.
  destruct (str.startswith _ _); cbn [negb].
  2:{ rewrite app_nil_r. exists s, []. split; [reflexivity|apply extends_refl]. }
  destruct (str.rpartition (Path b) "-") as [[name rest]|]; cbn [length Nat.eqb negb].
  2:{ rewrite app_nil_r. exists s, []. split; [reflexivity|apply extends_refl]. }
  cbn [getitem nth_error]. mrun.
  destruct (split1_cons rest ".") as (h & t & ->). cbn [hd].
  assert (Hp : unpack2 (firstn 2 ((h :: t) ++ [""])%list) = Returned (h, hd "" (t ++ [""])%list))
    by (destruct t; reflexivity).
  rewrite Hp.
  destruct (BackupType_of h) as [ty|e] eqn:Hty.
  2:{ apply BackupType_of_raises in Hty as ->. rewrite app_nil_r.
      eexists _, _. split; [reflexivity|apply extends_print]. }
  destruct (str.split name (snapshot_prefix config)) as [pieces|e] eqn:Hsp.
  2:{ apply split_raises in Hsp as ->. rewrite app_nil_r.
      eexists _, _. split; [reflexivity|apply extends_print]. }
  destruct pieces as [|p0 [|ts pieces]]; cbn [getitem nth_error].
  1,2: rewrite app_nil_r; eexists _, _; (split; [reflexivity|apply extends_print]).
  destruct (datetime.strptime ts TIMESTAMP_FORMAT) as [d|e] eqn:Hd.
  - eexists _, _. split; [reflexivity|apply extends_refl].
  - apply strptime_raises in Hd as ->. rewrite app_nil_r.
    eexists _, _. split; [reflexivity|apply extends_print].
Qed.


Lemma parse_loop_spec config l : forall acc s,
  exists s' evs,
    for_fold l (chain_loop_body config) acc s = (Returned (acc ++ parsed config l), s')
    /\ extends s s' evs.
Proof.
  induction l as [|b l IH]; intros acc s; simpl.
  - rewrite app_nil_r. exists s, []. split; [reflexivity|apply extends_refl].
  - destruct (chain_loop_body_spec config acc b s) as (s1 & e1 & H1 & X1).
    destruct (IH (acc ++ entry_records config b) s1) as (s2 & e2 & H2 & X2).
    exists s2, (e1 ++ e2). split; [|eapply extends_trans; eauto].
    unfold bind. rewrite H1, H2. f_equal. f_equal.
    rewrite <- app_assoc. f_equal. unfold entry_records.
    destruct (parse_entry config b); reflexivity.
Qed.

(** The call returns, and what it returns is decided by the sorted records. *)
Lemma find_backup_chain_spec backups config s :
  let sorted := sort_by timestamp (parsed config backups) in
  exists s' evs,
    find_backup_chain backups config s =
      (Returned match find is_full (rev sorted) with
                | Some full => (Some full, filter (follows full) sorted)
                | None => (None, [])
                end, s')
    /\ extends s s' evs.
Proof.
  intros sorted.
  destruct (parse_loop_spec config backups [] s) as (s' & evs & H & X).
  exists s', evs. split; [|exact X].
  simpl in H. unfold find_backup_chain, bind. rewrite H. subst sorted.
  destruct (parsed config backups) as [|r rs] eqn:E; [reflexivity|].
  destruct (find is_full (rev (sort_by timestamp (r :: rs)))); reflexivity.
Qed.

Lemma existsb_parsed_full config l :
  existsb (parses_as_full config) l = true ->
  exists r, In r (parsed config l) /\ is_full r = true.
Proof.
  induction l as [|b l IH]; simpl; [discriminate|].
  unfold parses_as_full at 1.
  destruct (parse_entry config b) as [r|] eqn:E.
  - destruct (is_full r) eqn:F; simpl.
    + intros _. exists r. split; [now left|exact F].
    + intros H. destruct (IH H) as (r' & I & F'). exists r'. split; [now right|exact F'].
  - simpl. exact IH.
Qed.

Lemma forallb_parsed_not_full config l :
  forallb (fun b => negb (parses_as_full config b)) l = true ->
  forall r, In r (parsed config l) -> is_full r = false.
Proof.
  induction l as [|b l IH]; simpl; [intros _ r []|].
  intros H. apply andb_prop in H as [Hb Hl]. unfold parses_as_full in Hb.
  destruct (parse_entry config b) as [r0|]; [|now apply IH].
  intros r [<-|Hr]; [now apply negb_true_iff in Hb|now apply IH].
Qed.


(** C1.  When at least one entry of the listing parses as a full record,
    [find_backup_chain] returns a full record: it is one of the parsed
    records, it is of type full, no parsed full record has a later
    timestamp, and no returned incremental has a timestamp earlier than or
    equal to its own.  For an incremental (second in time), a full (first)
    and a newer full (third), the newest full is chosen and there is no
    incremental. *)
Theorem find_backup_chain_latest_full backups config s
  (H : existsb (parses_as_full config) backups = true) :
  (exists full incrementals s',
      find_backup_chain backups config s = (Returned (Some full, incrementals), s')
      /\ In full (parsed config backups)
      /\ is_full full = true
      /\ (forall r, In r (parsed config backups) -> is_full r = true ->
                    datetime.leb (timestamp r) (timestamp full) = true)
      /\ (forall r, In r incrementals ->
                    datetime.leb (timestamp r) (timestamp full) = false))
  /\ exists s',
      find_backup_chain listing_two_fulls example_config s =
        (Returned (Some (mkBackupInfo "A@bk2025-01-01_00-00-00-full.zst"
                                      "A@bk2025-01-01_00-00-00" (at_time 2025 1 1) FULL 30),
                   []), s').
Proof.
  split.
  - destruct (find_backup_chain_spec backups config s) as (s' & evs & E & _).
    set (sorted := sort_by timestamp (parsed config backups)) in *.
    assert (P : Permutation sorted (parsed config backups)) by apply sort_by_perm.
    assert (S : StronglySorted (key_le timestamp) sorted) by apply sort_by_sorted.
    destruct (find is_full (rev sorted)) as [full|] eqn:F.
    + exists full, (filter (follows full) sorted), s'.
      destruct (find_rev_some _ _ _ F) as (l1 & l2 & D & Hf & Hl2).
      split; [exact E|]. split.
      { apply (Permutation_in _ P). rewrite D. apply in_elt. }
      split; [exact Hf|]. split.
      * intros r Hr Fr. apply (Permutation_in _ (Permutation_sym P)) in Hr.
        rewrite D in Hr, S. apply in_app_or in Hr as [Hr|[<-|Hr]].
        -- clear -S Hr. induction l1 as [|a l1 IH]; [destruct Hr|].
           simpl in S. inversion S as [|? ? S' Ha]; subst.
           destruct Hr as [<-|Hr]; [|now apply IH].
           rewrite Forall_forall in Ha. apply Ha, in_elt.
        -- apply leb_refl.
        -- rewrite (Hl2 r Hr) in Fr. discriminate.
      * intros r Hr. apply filter_In in Hr as [_ Hr].
        unfold follows in Hr. apply andb_prop in Hr as [_ Hr].
        unfold datetime.gtb in Hr. now apply ltb_not_leb.
    + exfalso. destruct (existsb_parsed_full _ _ H) as (r & Hr & Fr).
      apply (Permutation_in _ (Permutation_sym P)) in Hr.
      rewrite (find_rev_none _ _ F r Hr) in Fr. discriminate.
  - destruct (find_backup_chain_spec listing_two_fulls example_config s) as (s' & evs & E & _).
    exists s'. etransitivity; [exact E|]. vm_compute. reflexivity.
Qed.

Lemma find_backup_chain_latest_full_witness :
  existsb (parses_as_full example_config) listing_two_fulls = true
  /\ exists full incrementals s',
       find_backup_chain listing_two_fulls example_config quiet_state
       = (Returned (Some full, incrementals), s')
       /\ In full (parsed example_config listing_two_fulls)
       /\ is_full full = true
       /\ (forall r, In r (parsed example_config listing_two_fulls) -> is_full r = true ->
                     datetime.leb (timestamp r) (timestamp full) = true)
       /\ (forall r, In r incrementals ->
                     datetime.leb (timestamp r) (timestamp full) = false).
Proof.
  split; [reflexivity|].
  exact (proj1 (find_backup_chain_latest_full listing_two_fulls example_config quiet_state
                  eq_refl)).
Defined.

(** C2.  For every listing [find_backup_chain] returns; when it returns a
    full record, the incrementals it returns are the parsed records of type
    incremental whose timestamp is strictly greater than that of the full
    record, each as often as it was parsed, in ascending order of timestamp;
    when it returns no full record, it returns no incremental.  For a full
    (first in time) and two incrementals (second and third) listed out of
    order, it returns the full and the two incrementals in order. *)
Theorem find_backup_chain_incrementals backups config s :
  (exists chain s',
      find_backup_chain backups config s = (Returned chain, s')
      /\ match fst chain with
         | Some full =>
             snd chain = filter (follows full) (sort_by timestamp (parsed config backups))
             /\ Permutation (snd chain) (filter (follows full) (parsed config backups))
             /\ StronglySorted (key_le timestamp) (snd chain)
             /\ In full (parsed config backups)
         | None => snd chain = []
         end)
  /\ exists s',
      find_backup_chain listing_one_chain example_config s =
        (Returned
           (Some (mkBackupInfo "A@bk2024-01-01_00-00-00-full.gz"
                               "A@bk2024-01-01_00-00-00" (at_time 2024 1 1) FULL 10),
            [mkBackupInfo "A@bk2024-02-01_00-00-00-incremental.gz"
                          "A@bk2024-02-01_00-00-00" (at_time 2024 2 1) INCREMENTAL 20;
             mkBackupInfo "A@bk2024-03-01_00-00-00-incremental.gz"
                          "A@bk2024-03-01_00-00-00" (at_time 2024 3 1) INCREMENTAL 30]),
         s').
Proof.
  split.
  - destruct (find_backup_chain_spec backups config s) as (s' & evs & E & _).
    set (sorted := sort_by timestamp (parsed config backups)) in *.
    eexists _, s'. split; [exact E|].
    destruct (find is_full (rev sorted)) as [full|] eqn:F; simpl; [|reflexivity].
    split; [reflexivity|]. split.
    + apply filter_perm, sort_by_perm.
    + split; [apply filter_sorted, sort_by_sorted|].
      destruct (find_rev_some _ _ _ F) as (l1 & l2 & D & _).
      apply (Permutation_in _ (sort_by_perm timestamp (parsed config backups))).
      fold sorted. rewrite D. apply in_elt.
  - destruct (find_backup_chain_spec listing_one_chain example_config s) as (s' & evs & E & _).
    exists s'. etransitivity; [exact E|]. vm_compute. reflexivity.
Qed.



(** C7.  When no entry of the listing parses as a full record,
    [find_backup_chain] returns no full record and no incremental; so it
    does for the empty listing. *)
Theorem find_backup_chain_without_full backups config s
  (H : forallb (fun b => negb (parses_as_full config b)) backups = true) :
  (exists s', find_backup_chain backups config s = (Returned (None, []), s'))
  /\ find_backup_chain [] config s = (Returned (None, []), s).
Proof.
  split; [|reflexivity].
  destruct (find_backup_chain_spec backups config s) as (s' & evs & E & _).
  exists s'. rewrite E.
  destruct (find is_full (rev _)) as [full|] eqn:F; [|reflexivity].
  destruct (find_rev_some _ _ _ F) as (l1 & l2 & D & Hf & _).
  assert (I : In full (parsed config backups)).
  { apply (Permutation_in _ (sort_by_perm timestamp (parsed config backups))).
    rewrite D. apply in_elt. }
  rewrite (forallb_parsed_not_full _ _ H _ I) in Hf. discriminate.
Qed.

Lemma find_backup_chain_without_full_witness :
  forallb (fun b => negb (parses_as_full example_config b)) listing_incrementals_only = true
  /\ exists s',
       find_backup_chain listing_incrementals_only example_config quiet_state
       = (Returned (None, []), s').
Proof.
  split; [reflexivity|].
  exact (proj1 (find_backup_chain_without_full listing_incrementals_only example_config
                  quiet_state eq_refl)).
Defined.

End Restore.

(** ** Timestamps: printing and reading back *)

Section Timestamps.
Import config.


























End Timestamps.

(** ** backup.py: snapshots *)

Section Backup.
Import config backup compression.

Section Destroy.
Variables (snapshot_name : string) (silent : bool) (retries delay : Z).

Let cmd := destroy_cmd snapshot_name.

Lemma attempt_succeeds attempt rest s :
  sigterm s = None -> returncode (procs s (nproc s)) = 0 ->
  destroy_attempts snapshot_name silent retries delay (attempt :: rest) s =
    (Returned tt,
     advance s (Run cmd :: only_if (negb silent)
                  [Print ("Successfully destroyed snapshot " ++ snapshot_name)]) 1 1).
Proof.
  intros Hs Hr. cbn [destroy_attempts]. unfold bind at 1, try_except.
  unfold bind at 1. fold (destroy_cmd snapshot_name).
  rewrite subprocess_run_ok by assumption.
  destruct s as [pr np sg tk ck kf ns bp lg]. destruct silent; mrun; simpl.
  - reflexivity.
  - now rewrite <- app_assoc.
Qed.

Lemma attempt_retries attempt rest s :
  sigterm s = None -> busy (procs s (nproc s)) = true -> attempt < retries - 1 ->
  destroy_attempts snapshot_name silent retries delay (attempt :: rest) s =
    destroy_attempts snapshot_name silent retries delay rest
      (advance s (Run cmd :: only_if (negb silent)
                    [Print ("Snapshot is busy, retrying in " ++ str_of_Z delay ++ "s ("
                              ++ str_of_Z (attempt + 1) ++ "/" ++ str_of_Z (retries - 1)
                              ++ ")...")]
                  ++ [Sleep delay]) 1 2).
Proof.
  intros Hs Hb Ha. unfold busy in Hb. apply andb_prop in Hb as [Hrc Hb].
  apply negb_true_iff, Z.eqb_neq in Hrc. apply Z.ltb_lt in Ha.
  cbn [destroy_attempts]. unfold bind at 1, try_except.
  unfold bind at 1. fold (destroy_cmd snapshot_name).
  rewrite subprocess_run_failed by assumption. rewrite Hb, Ha.
  destruct s as [pr np sg tk ck kf ns bp lg]. simpl in Hs. subst sg.
  destruct silent; mrun; simpl; rewrite <- ?app_assoc; reflexivity.
Qed.

Lemma attempt_gives_up attempt rest s :
  sigterm s = None -> returncode (procs s (nproc s)) <> 0 ->
  busy (procs s (nproc s)) && (attempt <? retries - 1) = false ->
  destroy_attempts snapshot_name silent retries delay (attempt :: rest) s =
    (Returned tt,
     advance s (Run cmd :: only_if (negb silent)
                  [Print ("Failed to destroy snapshot " ++ snapshot_name ++ ": "
                            ++ str.strip (stderr (procs s (nproc s))))]) 1 1).
Proof.
  intros Hs Hrc Hb. unfold busy in Hb.
  pose proof Hrc as Hrc'. apply Z.eqb_neq in Hrc'. rewrite Hrc' in Hb. cbn [negb andb] in Hb.
  cbn [destroy_attempts]. unfold bind at 1, try_except.
  unfold bind at 1. fold (destroy_cmd snapshot_name).
  rewrite subprocess_run_failed by assumption. rewrite Hb.
  destruct s as [pr np sg tk ck kf ns bp lg].
  destruct silent; mrun; simpl; rewrite <- ?app_assoc; reflexivity.
Qed.

Lemma destroy_attempts_returns attempts : forall s,
  sigterm s = None ->
  exists evs dp dt,
    destroy_attempts snapshot_name silent retries delay attempts s
    = (Returned tt, advance s evs dp dt)
    /\ (dp <= length attempts)%nat
    /\ length (filter is_run evs) = dp
    /\ forallb (destroy_event snapshot_name) evs = true
    /\ (silent = true -> forallb is_run_or_sleep evs = true)
    /\ (attempts <> [] -> exists evs', evs = Run cmd :: evs').
Proof.
  induction attempts as [|attempt rest IH]; intros s Hs.
  - exists [], 0%nat, 0%nat. simpl. unfold advance, ret.
    rewrite app_nil_r. destruct s. simpl. repeat split; auto. congruence.
  - destruct (Z.eq_dec (returncode (procs s (nproc s))) 0) as [Hrc|Hrc].
    + rewrite attempt_succeeds by assumption.
      eexists _, _, _. split; [reflexivity|]. split; [simpl; lia|].
      split; [destruct silent; reflexivity|].
      split; [|split; [now intros ->|intros _; eexists; reflexivity]].
      unfold cmd. destruct silent; cbn; rewrite String.eqb_refl, ?prefix_nil; reflexivity.
    + destruct (busy (procs s (nproc s)) && (attempt <? retries - 1)) eqn:Hb.
      * apply andb_prop in Hb as [Hb Ha]. apply Z.ltb_lt in Ha.
        rewrite attempt_retries by assumption.
        destruct (IH (advance s (Run cmd :: only_if (negb silent)
                    [Print ("Snapshot is busy, retrying in " ++ str_of_Z delay ++ "s ("
                              ++ str_of_Z (attempt + 1) ++ "/" ++ str_of_Z (retries - 1)
                              ++ ")...")]
                  ++ [Sleep delay]) 1 2) Hs) as (evs & dp & dt & E & Hdp & Hn & Hev & Hq & _).
        rewrite E, advance_advance.
        eexists _, _, _. split; [reflexivity|]. split; [simpl; lia|].
        split; [rewrite filter_app, length_app, Hn; destruct silent; simpl; lia|].
        split; [|split; [intros ->; rewrite forallb_app, Hq by reflexivity; reflexivity
                        |intros _; eexists; reflexivity]].
        rewrite forallb_app, Hev. unfold cmd.
        destruct silent; cbn; rewrite String.eqb_refl, ?prefix_nil; reflexivity.

      * rewrite attempt_gives_up by assumption.
        eexists _, _, _. split; [reflexivity|]. split; [simpl; lia|].
        split; [destruct silent; reflexivity|].
        split; [|split; [now intros ->|intros _; eexists; reflexivity]].
        unfold cmd. destruct silent; cbn; rewrite String.eqb_refl, ?prefix_nil; reflexivity.
Qed.

End Destroy.


Lemma destroy_snapshot_named name silent s :
  truthy (Some name) = true ->
  destroy_snapshot (Some name) silent s =
    destroy_attempts name silent 5 2 (range 5)
      (advance s (only_if (negb silent) [Print ("Destroying snapshot: " ++ name)]) 0 0).
Proof.
  intros H. unfold destroy_snapshot. rewrite H. cbn [negb].
  destruct s as [pr np sg tk ck kf ns bp lg].
  destruct silent; mrun; simpl; rewrite ?app_nil_r; reflexivity.
Qed.


Lemma get_snapshots_ok config s :
  sigterm s = None -> returncode (procs s (nproc s)) = 0 ->
  get_snapshots config s =
    (Returned (listed config (stdout (procs s (nproc s)))),
     advance s [Run (list_cmd config)] 1 1).
Proof.
  intros Hs Hr. unfold get_snapshots. fold (list_cmd config).
  unfold bind at 1. rewrite subprocess_run_ok by assumption. reflexivity.
Qed.

Lemma get_snapshots_failed config s :
  sigterm s = None -> returncode (procs s (nproc s)) <> 0 ->
  get_snapshots config s =
    (Raised (CalledProcessError (returncode (procs s (nproc s))) (stderr (procs s (nproc s)))),
     advance s [Run (list_cmd config)] 1 1).
Proof.
  intros Hs Hr. unfold get_snapshots. fold (list_cmd config).
  unfold bind at 1. rewrite subprocess_run_failed by assumption. reflexivity.
Qed.


Lemma listed_named config out x : In x (listed config out) -> truthy (Some x) = true.
Proof.
  unfold listed. intros H. apply filter_In in H as [_ H].
  eapply contains_nonempty; [|exact H].
  destruct (zfs_dataset config); discriminate.
Qed.

Lemma destroy_cmd_inj x y : destroy_cmd x = destroy_cmd y -> x = y.
Proof. unfold destroy_cmd. simpl. congruence. Qed.

Lemma destroy_event_run name c : destroy_event name (Run c) = true -> c = destroy_cmd name.
Proof. simpl. apply String.eqb_eq. Qed.

Lemma destroy_each l : forall s,
  sigterm s = None ->
  (forall x, In x l -> truthy (Some x) = true) ->
  exists evs dp dt,
    for_each l (fun x => destroy_snapshot (Some x) true) s = (Returned tt, advance s evs dp dt)
    /\ (forall x, In (Run (destroy_cmd x)) evs <-> In x l)
    /\ forallb is_run_or_sleep evs = true.
Proof.
  induction l as [|a l IH]; intros s Hs Hl.
  - exists [], 0%nat, 0%nat. simpl. unfold ret, advance. rewrite app_nil_r.
    destruct s. simpl. repeat split; auto; intros [].
  - cbn [for_each]. unfold bind.
    rewrite destroy_snapshot_named by (apply Hl; now left).
    destruct (destroy_attempts_returns a true 5 2 (range 5) (advance s (only_if (negb true) []) 0 0) Hs)
      as (e1 & p1 & t1 & E1 & _ & _ & Hev & Hq & Hhd).
    cbn [negb only_if] in *. rewrite E1, advance_advance. cbn [app].
    destruct (IH (advance s e1 (p1 + 0) (t1 + 0)) Hs) as (e2 & p2 & t2 & E2 & Hin & Hq2);
      [intros x Hx; apply Hl; now right|].
    rewrite E2, advance_advance.
    eexists _, _, _. split; [reflexivity|]. split.
    + intros x. rewrite in_app_iff, Hin. split.
      * intros [H|H]; [left|now right].
        rewrite forallb_forall in Hev. apply Hev, destroy_event_run in H.
        now apply destroy_cmd_inj in H.
      * intros [<-|H]; [left|now right].
        destruct Hhd as (evs' & ->); [discriminate|now left].
    + rewrite forallb_app, Hq, Hq2 by reflexivity. reflexivity.
Qed.


Lemma create_snapshot_ok name s :
  sigterm s = None -> returncode (procs s (nproc s)) = 0 ->
  create_snapshot name s = (Returned tt, advance s [Run ("zfs snapshot " ++ name)] 1 1).
Proof.
  intros Hs Hr. unfold create_snapshot, bind.
  rewrite subprocess_run_ok by assumption. reflexivity.
Qed.

Lemma create_snapshot_failed name s :
  sigterm s = None -> returncode (procs s (nproc s)) <> 0 ->
  create_snapshot name s =
    (Raised (CalledProcessError (returncode (procs s (nproc s))) (stderr (procs s (nproc s)))),
     advance s [Run ("zfs snapshot " ++ name)] 1 1).
Proof.
  intros Hs Hr. unfold create_snapshot, bind.
  rewrite subprocess_run_failed by assumption. reflexivity.
Qed.

Lemma backup_snapshot_events config name last s :
  exists evs,
    backup_snapshot config name last s = (Returned None, advance s evs 0 0)
    /\ forallb is_print_or_popen evs = true.
Proof.
  unfold backup_snapshot.
  destruct (get_compressor_by_name_returns (compressor config)) as (c & ->).
  destruct s as [pr np sg tk ck kf ns bp lg].
  destruct (truthy last); mrun; simpl; rewrite <- !app_assoc; simpl;
    eexists; (split; [reflexivity|reflexivity]).
Qed.

Lemma wait_returns s :
  sigterm s = None ->
  wait s = (Returned (returncode (procs s (nproc s))),
            with_backup_process (advance s [Wait] 1 1)
                                (Some (Some (returncode (procs s (nproc s)))))).
Proof.
  destruct s as [pr np sg tk ck kf ns bp lg]. simpl. intros ->.
  unfold wait, set_backup_process. mrun. reflexivity.
Qed.

Lemma snapshot_name_truthy config s : truthy (Some (new_snapshot_name config s)) = true.
Proof. unfold new_snapshot_name. destruct (zfs_dataset config); reflexivity. Qed.

Lemma destroy_not_prune name config e :
  destroy_event name e = true -> prune_event config e = false.
Proof.
  unfold prune_event. destruct e as [m|c| | | |]; simpl; try reflexivity.
  - destruct (String.eqb m skip_msg) eqn:E; [|reflexivity].
    apply String.eqb_eq in E. subst m. discriminate.
  - intros H. apply String.eqb_eq in H. subst c. reflexivity.
Qed.

Lemma prune_snapshots_begins config s :
  sigterm s = None ->
  exists o s' e evs,
    prune_snapshots config s = (o, s')
    /\ log s' = log s ++ e :: evs
    /\ prune_event config e = true
    /\ (o = Returned tt \/ exists rc err, o = Raised (CalledProcessError rc err)).
Proof.
  intros Hs. unfold prune_snapshots.
  destruct (snapshot_retention config <=? 0).
  - eexists _, _, _, []. split; [reflexivity|]. split; [reflexivity|]. split; [reflexivity|now left].
  - unfold bind at 1.
    destruct (Z.eq_dec (returncode (procs s (nproc s))) 0) as [Hr|Hr].
    + rewrite get_snapshots_ok by assumption.
      set (snapshots := listed config _).
      destruct (Z.of_nat (length snapshots) >? snapshot_retention config).
      * rewrite print_then.
        match goal with |- context [for_each ?l ?f ?st] =>
          destruct (destroy_each l st) as (evs & dp & dt & E & _);
            [exact Hs
            |intros x Hx; apply (listed_named config (stdout (procs s (nproc s))));
             eapply slice_to_incl, Hx
            |rewrite E] end.
        rewrite !advance_advance.
        eexists _, _, _, _. split; [reflexivity|]. split; [reflexivity|].
        split; [|now left].
        unfold prune_event. simpl. rewrite String.eqb_refl. reflexivity.
      * eexists _, _, _, []. split; [reflexivity|]. split; [reflexivity|].
        split; [|now left].
        unfold prune_event. simpl. rewrite String.eqb_refl. reflexivity.
    + rewrite get_snapshots_failed by assumption.
      eexists _, _, _, []. split; [reflexivity|]. split; [reflexivity|].
      split; [|right; eauto].
      unfold prune_event. simpl. rewrite String.eqb_refl. reflexivity.
Qed.

Lemma forced_full (full : bool) (latest : option string) s :
  (if full then print "Full backup forced by command-line argument." ;; ret None
   else ret latest) s
  = (Returned (if full then None else latest),
     advance s (only_if full [Print "Full backup forced by command-line argument."]) 0 0).
Proof.
  destruct full; [apply print_then|].
  unfold ret, only_if. now rewrite advance_nil.
Qed.

(** C5.  In a backup run without a termination signal, pruning is invoked
    exactly when the listing, the creation of the snapshot and the pipeline
    all exit with status zero; when the pipeline exits with another
    status, [main] returns after a deletion command for the snapshot that
    it has just created. *)
Theorem failed_pipeline_destroys_and_never_prunes main_full config s (Hsig : sigterm s = None) :
  let new := new_snapshot_name config s in
  let rc_list := returncode (procs s (nproc s)) in
  let rc_create := returncode (procs s (1 + nproc s)) in
  let rc_pipeline := returncode (procs s (2 + nproc s)) in
  exists o s' evs,
    main main_full config s = (o, s')
    /\ log s' = log s ++ evs
    /\ (pruning_invoked config evs = true <->
        rc_list = 0 /\ rc_create = 0 /\ rc_pipeline = 0)
    /\ (rc_list = 0 -> rc_create = 0 -> rc_pipeline <> 0 ->
        o = Returned tt /\ destroy_issued new (after_wait evs) = true).
Proof.
  intros new rc_list rc_create rc_pipeline.
  unfold main.
  set (s0 := with_backup_process (with_new_snapshot s None) None).
  change ((set_new_snapshot None;; set_backup_process None;; ?k) s) with (k s0).
  assert (Hs0 : sigterm s0 = None) by exact Hsig.
  unfold try_except.
  unfold bind at 1.
  destruct (Z.eq_dec rc_list 0) as [Hl|Hl].
  2:{ rewrite get_snapshots_failed by assumption.
      eexists _, _, [Run (list_cmd config)]. split; [reflexivity|]. split; [reflexivity|].
      split; [|intros; contradiction].
      split; [discriminate|]. intros (? & _). contradiction. }
  rewrite get_snapshots_ok by assumption.
  set (snapshots := listed config _).
  unfold bind at 1.
  rewrite (forced_full main_full (last_or_none snapshots)).
  rewrite advance_advance. cbn [Nat.add app].
  set (latest := if main_full then None else last_or_none snapshots).
  unfold bind at 1. cbn [clock advance]. fold (new_snapshot_name config s0).
  change (new_snapshot_name config s0) with new.
  unfold bind at 1. unfold set_new_snapshot at 1.
  unfold bind at 1.
  match goal with |- context [create_snapshot new ?st] => set (s1 := st) end.
  assert (Hs1 : sigterm s1 = None) by exact Hsig.
  assert (Hlog1 : log s1 = log s ++ Run (list_cmd config)
                    :: only_if main_full [Print "Full backup forced by command-line argument."])
    by reflexivity.
  destruct (Z.eq_dec rc_create 0) as [Hc|Hc].
  2:{ rewrite create_snapshot_failed by assumption.
      eexists _, _, _. split; [reflexivity|]. split.
      { cbn [log advance]. rewrite Hlog1, <- app_assoc. reflexivity. }
      split; [|intros; contradiction].
      split; [|intros (_ & ? & _); contradiction].
      unfold pruning_invoked. destruct main_full; discriminate. }
  rewrite create_snapshot_ok by assumption.
  unfold bind at 1.
  destruct (backup_snapshot_events config new latest
              (advance s1 [Run ("zfs snapshot " ++ new)] 1 1)) as (bevs & -> & Hb).
  rewrite advance_advance. cbn [Nat.add].
  unfold bind at 1. unfold set_backup_process at 1.
  unfold bind at 1.
  match goal with |- context [wait ?st] => set (s2 := st) end.
  assert (Hs2 : sigterm s2 = None) by exact Hsig.
  rewrite wait_returns by assumption.
  change (returncode (procs s2 (nproc s2))) with rc_pipeline.
  match goal with |- context [_ (with_backup_process (advance s2 [Wait] 1 1) ?v)] =>
    set (s3 := with_backup_process (advance s2 [Wait] 1 1) v) end.
  assert (Hs3 : sigterm s3 = None) by exact Hsig.
  set (pre := Run (list_cmd config)
                :: only_if main_full [Print "Full backup forced by command-line argument."]
                ++ Run ("zfs snapshot " ++ new) :: bevs).
  assert (Hlog3 : log s3 = log s ++ pre ++ [Wait]).
  { cbn [log s3 s2 advance with_backup_process]. rewrite Hlog1. unfold pre.
    list_norm. reflexivity. }
  assert (Hpre : forallb (fun e => negb (is_wait e)) pre = true).
  { unfold pre. cbn [forallb is_wait negb andb]. rewrite forallb_app.
    cbn [forallb is_wait negb andb]. 
    replace (forallb (fun e => negb (is_wait e)) bevs) with true.
    - destruct main_full; reflexivity.
    - symmetry. apply forallb_forall. intros e He.
      rewrite forallb_forall in Hb. specialize (Hb e He). now destruct e. }
  destruct (rc_pipeline =? 0) eqn:Hp.
  - apply Z.eqb_eq in Hp. rewrite print_then.
    destruct (prune_snapshots_begins config (advance s3 [Print "Backup successful!"] 0 0) Hs3)
      as (o & s' & e & evs & -> & Hlog & He & Ho).
    exists o, s', (pre ++ Wait :: Print "Backup successful!" :: e :: evs).
    split; [destruct Ho as [->|(rc & err & ->)]; reflexivity|].
    split.
    { rewrite Hlog. cbn [log advance]. rewrite Hlog3. list_norm. reflexivity. }
    split; [|intros; contradiction].
    split; [auto|]. intros _. unfold pruning_invoked.
    rewrite after_wait_app by exact Hpre. cbn [existsb]. rewrite He.
    apply orb_true_r.
  - apply Z.eqb_neq in Hp. rewrite print_then.
    rewrite destroy_snapshot_named by apply snapshot_name_truthy.
    rewrite advance_advance.
    match goal with |- context [destroy_attempts _ _ _ _ _ ?st] =>
      destruct (destroy_attempts_returns new false 5 2 (range 5) st Hs3)
        as (devs & dp & dt & -> & _ & _ & Hev & _ & Hhd) end.
    rewrite advance_advance.
    eexists _, _, (pre ++ Wait :: _). split; [reflexivity|].
    split.
    { cbn [log advance]. rewrite Hlog3. list_norm. reflexivity. }
    destruct Hhd as (devs' & ->); [discriminate|].
    rewrite after_wait_app by exact Hpre.
    split.
    + split; [|intros (_ & _ & ?); contradiction].
      unfold pruning_invoked. rewrite after_wait_app by exact Hpre.
      intros H. exfalso. apply existsb_exists in H as (e & He & Hpe).
      cbn [app only_if negb] in He.
      destruct He as [<-|[<-|He]]; try discriminate.
      rewrite forallb_forall in Hev.
      rewrite (destroy_not_prune new config e (Hev e He)) in Hpe. discriminate.
    + intros _ _ _. split; [reflexivity|].
      unfold destroy_issued. cbn [app only_if negb existsb event_eqb].
      rewrite String.eqb_refl. now rewrite !orb_true_r.
Qed.

(** C9.  Both gzip and pigz register the extension [gz] and the dict keeps
    the last one: every file name that ends in [.gz] resolves to pigz, no
    file name resolves to gzip, and a backup made with the gzip compressor
    is stored under a name that [restore_backup] decompresses with
    [pigz -d]. *)
Theorem gz_files_are_decompressed_with_pigz :
  (forall filename,
      str.endswith filename ".gz" = true -> get_compressor_by_filename filename = Some pigz)
  /\ (forall filename, get_compressor_by_filename filename <> Some gzip)
  /\ (forall dataset prefix retention remote bucket conf snapshot last target s s',
        let config := mkBackupConfig dataset prefix retention remote bucket conf "gzip" in
        let object :=
          (snapshot ++ if truthy last then "-incremental.gz" else "-full.gz")%string in
        let remote_path := (remote ++ ":" ++ bucket ++ "/" ++ object)%string in
        (exists zfs_cmd,
            In (Popen ("set -o pipefail; " ++ zfs_cmd ++ " | " ++ "gzip -c" ++ " | "
                         ++ ("rclone --config " ++ conf ++ " rcat " ++ remote_path
                               ++ " --stats-one-line")))
               (log (snd (backup_snapshot config snapshot last s))))
        /\ In (Run ("set -o pipefail; " ++ ("rclone --config " ++ conf ++ " cat " ++ remote_path)
                      ++ " | " ++ "pigz -d" ++ " | " ++ ("zfs receive -F " ++ target)))
              (log (snd (restore.restore_backup config object target s')))).
Proof.
  split; [exact get_compressor_by_filename_gz|].
  split; [exact get_compressor_by_filename_not_gzip|].
  intros dataset prefix retention remote bucket conf snapshot last target s s' config object remote_path.
  split.
  - unfold backup_snapshot. change (get_compressor_by_name (compressor config)) with (Returned gzip).
    destruct s as [pr np sg tk ck kf ns bp lg].
    subst remote_path object. destruct (truthy last); mrun; cbn [app];
      eexists; apply in_or_app; right; left; reflexivity.
  - unfold restore.restore_backup.
    rewrite (get_compressor_by_filename_gz object).
    2:{ unfold object. apply endswith_append. destruct (truthy last); reflexivity. }
    cbn [option_map truthy decompress_cmd pigz]. unfold bind at 1, ret at 1.
    rewrite !print_then. fold remote_path. unfold try_except, bind at 1.
    match goal with |- context [subprocess_run ?c ?k ?st] =>
      destruct (subprocess_run_emits c k st) as (o & st' & evs & -> & Hlog) end.
    assert (I : In (Run ("set -o pipefail; " ++ ("rclone --config " ++ conf ++ " cat " ++ remote_path)
                      ++ " | " ++ "pigz -d" ++ " | " ++ ("zfs receive -F " ++ target))) (log st')).
    { rewrite Hlog. apply in_or_app. right. now left. }
    destruct o as [r|[]]; cbn [snd]; try exact I.
    + rewrite print_then. cbn [ret snd log advance]. apply in_or_app. now left.
    + rewrite print_then. cbn [ret snd log advance]. apply in_or_app. now left.
Qed.

(** C10, as amended.  Called with no name or with the empty name,
    [destroy_snapshot] returns at once and leaves the state as it is: no
    deletion attempt, no sleep, no message.  A backup run that is
    interrupted while it lists the snapshots, before it has chosen the name
    of its snapshot, runs no deletion command in its cleanup. *)
Theorem destroy_snapshot_without_name name silent s (Hname : truthy name = false) :
  destroy_snapshot name silent s = (Returned tt, s)
  /\ forall full config s0,
       sigterm s0 = Some (ticks s0) ->
       exists s',
         main full config s0 = (Raised (SystemExit 1), s')
         /\ log s' = log s0 ++ [Run (list_cmd config); Print signal_msg; Print interrupted_msg].
Proof.
  split.
  - unfold destroy_snapshot. now rewrite Hname.
  - intros full config s0 H0. destruct s0 as [pr np sg tk ck kf ns bp lg].
    simpl in H0. subst sg.
    unfold main, get_snapshots, set_new_snapshot, set_backup_process, destroy_snapshot, sys_exit.
    mrun. rewrite Nat.eqb_refl. mrun.
    eexists. split; [reflexivity|]. cbn [log]. list_norm. reflexivity.
Qed.

(** C10 does not hold for every run that is interrupted before its
    snapshot exists: [main] chooses the name before it creates the snapshot,
    and when the signal arrives during [zfs snapshot], which therefore
    does not return, the cleanup runs [zfs destroy] on that name. *)
Lemma cleanup_deletes_when_create_is_interrupted :
  main false example_config (interrupted_at 1)
  = (Raised (SystemExit 1),
     mkState (procs quiet_state) 2 (Some 1%nat) 3 (clock quiet_state) false
       (Some "A@bk2025-01-01_00-00-00") None
       [Run "zfs list -t snapshot -o name -s creation -r A";
        Run "zfs snapshot A@bk2025-01-01_00-00-00";
        Print signal_msg;
        Print interrupted_msg;
        Print "Destroying snapshot: A@bk2025-01-01_00-00-00";
        Run "zfs destroy A@bk2025-01-01_00-00-00";
        Print "Successfully destroyed snapshot A@bk2025-01-01_00-00-00"]).
Proof. vm_compute. reflexivity. Qed.



Lemma failed_pipeline_destroys_and_never_prunes_witness :
  sigterm failing_pipeline_state = None
  /\ exists o s' evs,
       main false example_config failing_pipeline_state = (o, s')
       /\ log s' = log failing_pipeline_state ++ evs
       /\ (pruning_invoked example_config evs = true <->
           returncode (procs failing_pipeline_state (nproc failing_pipeline_state)) = 0
           /\ returncode (procs failing_pipeline_state (1 + nproc failing_pipeline_state)) = 0
           /\ returncode (procs failing_pipeline_state (2 + nproc failing_pipeline_state)) = 0)
       /\ (returncode (procs failing_pipeline_state (nproc failing_pipeline_state)) = 0 ->
           returncode (procs failing_pipeline_state (1 + nproc failing_pipeline_state)) = 0 ->
           returncode (procs failing_pipeline_state (2 + nproc failing_pipeline_state)) <> 0 ->
           o = Returned tt
           /\ destroy_issued (new_snapshot_name example_config failing_pipeline_state)
                             (after_wait evs) = true).
Proof.
  split; [reflexivity|].
  exact (failed_pipeline_destroys_and_never_prunes false example_config
           failing_pipeline_state eq_refl).
Defined.

Lemma gz_files_are_decompressed_with_pigz_witness :
  str.endswith "A@bk2024-01-01_00-00-00-full.gz" ".gz" = true
  /\ get_compressor_by_filename "A@bk2024-01-01_00-00-00-full.gz" = Some pigz.
Proof.
  split; [reflexivity|].
  exact (proj1 gz_files_are_decompressed_with_pigz "A@bk2024-01-01_00-00-00-full.gz" eq_refl).
Defined.

Lemma destroy_snapshot_without_name_witness :
  truthy None = false
  /\ sigterm (interrupted_at 0) = Some (ticks (interrupted_at 0))
  /\ destroy_snapshot None false quiet_state = (Returned tt, quiet_state)
  /\ exists s',
       main false example_config (interrupted_at 0) = (Raised (SystemExit 1), s')
       /\ log s' = log (interrupted_at 0)
                   ++ [Run (list_cmd example_config); Print signal_msg; Print interrupted_msg].
Proof.
  split; [reflexivity|]. split; [reflexivity|].
  split.
  - exact (proj1 (destroy_snapshot_without_name None false quiet_state eq_refl)).
  - exact (proj2 (destroy_snapshot_without_name None false quiet_state eq_refl)
             false example_config (interrupted_at 0) eq_refl).
Defined.

End Backup.

(** * Further properties *)

(** ** compression.py: the registry *)

Section Registry.
Import compression.

Lemma string_length_append a b :
  String.length (a ++ b) = (String.length a + String.length b)%nat.
Proof. induction a as [|c a IH]; simpl; [reflexivity|]. now rewrite IH. Qed.

Lemma eqb_length a b : String.eqb a b = true -> String.length a = String.length b.
Proof. intros H. apply String.eqb_eq in H. now subst. Qed.

(** A suffix no longer than [b] is looked for in [b] alone. *)
Lemma endswith_append_short a b suf :
  (String.length suf <= String.length b)%nat ->
  str.endswith (a ++ b) suf = str.endswith b suf.
Proof.
  intros L. induction a as [|c a IH]; [reflexivity|].
  cbn [append str.endswith]. rewrite IH.
  destruct (String.eqb (String c (a ++ b)) suf) eqn:E; [|reflexivity].
  apply eqb_length in E. cbn [String.length] in E. rewrite string_length_append in E. lia.
Qed.

Lemma by_name_items :
  _by_name = [("gzip", gzip); ("pigz", pigz); ("zstd", zstd)].
Proof. reflexivity. Qed.

Lemma by_name_in_registry name c :
  get_compressor_by_name name = Returned c -> In c COMPRESSORS.
Proof.
  unfold get_compressor_by_name. rewrite by_name_items. cbn [dict_get].
  change (String.eqb "gzip" DEFAULT_COMPRESSOR) with false.
  change (String.eqb "pigz" DEFAULT_COMPRESSOR) with true. cbn iota.
  destruct (String.eqb "gzip" name); [intros [= <-]; simpl; auto|].
  destruct (String.eqb "pigz" name); [intros [= <-]; simpl; auto|].
  destruct (String.eqb "zstd" name); intros [= <-]; simpl; auto.
Qed.

Lemma by_filename_cases filename c :
  get_compressor_by_filename filename = Some c -> c = pigz \/ c = zstd.
Proof.
  unfold get_compressor_by_filename. rewrite by_extension_items. cbn [first_by_suffix].
  destruct (str.endswith filename _); [intros [= <-]; now left|].
  destruct (str.endswith filename _); [intros [= <-]; now right|discriminate].
Qed.

(** X1.  [get_compressor_by_name] returns for every name, and what it
    returns is in the registry: the compressor of that name when there is
    one, and pigz, the default, when the registry has no compressor of that
    name. *)
Theorem get_compressor_by_name_falls_back name :
  exists c,
    get_compressor_by_name name = Returned c
    /\ In c COMPRESSORS
    /\ (compression.name c = name
        \/ ((forall c', In c' COMPRESSORS -> compression.name c' <> name) /\ c = pigz)).
Proof.
  unfold get_compressor_by_name. rewrite by_name_items. cbn [dict_get].
  change (String.eqb "gzip" DEFAULT_COMPRESSOR) with false.
  change (String.eqb "pigz" DEFAULT_COMPRESSOR) with true. cbn iota.
  destruct (String.eqb "gzip" name) eqn:E1.
  { apply String.eqb_eq in E1. exists gzip. subst name. simpl. auto. }
  destruct (String.eqb "pigz" name) eqn:E2.
  { apply String.eqb_eq in E2. exists pigz. subst name. simpl. auto. }
  destruct (String.eqb "zstd" name) eqn:E3.
  { apply String.eqb_eq in E3. exists zstd. subst name. simpl. auto 6. }
  exists pigz. split; [reflexivity|]. split; [simpl; auto|]. right. split; [|reflexivity].
  apply String.eqb_neq in E1, E2, E3.
  intros c' [<-|[<-|[<-|[]]]]; assumption.
Qed.

(** X2.  Looking a registered compressor up by its own name gives that
    compressor back: the names of the registry are distinct. *)
Theorem get_compressor_by_name_registered c :
  In c COMPRESSORS -> get_compressor_by_name (compression.name c) = Returned c.
Proof. intros [<-|[<-|[<-|[]]]]; reflexivity. Qed.

Lemma get_compressor_by_name_registered_witness :
  In zstd COMPRESSORS /\ get_compressor_by_name (compression.name zstd) = Returned zstd.
Proof.
  assert (H : In zstd COMPRESSORS) by (simpl; auto).
  split; [exact H|]. exact (get_compressor_by_name_registered zstd H).
Defined.

(** X3.  When [get_compressor_by_filename] finds a compressor, the file name
    ends with a dot and the extension of that compressor, and the
    compressor is pigz or zstd, never gzip, whose extension pigz has taken
    over; when it finds none, the file name ends with the extension of no
    registered compressor. *)
Theorem get_compressor_by_filename_extension filename :
  match get_compressor_by_filename filename with
  | Some c =>
      str.endswith filename ("." ++ extension c) = true
      /\ (c = pigz \/ c = zstd)
  | None =>
      forall c, In c COMPRESSORS -> str.endswith filename ("." ++ extension c) = false
  end.
Proof.
  unfold get_compressor_by_filename. rewrite by_extension_items. cbn [first_by_suffix].
  destruct (str.endswith filename ("." ++ "gz")) eqn:G; [simpl; auto|].
  destruct (str.endswith filename ("." ++ "zst")) eqn:Z; [simpl; auto|].
  intros c [<-|[<-|[<-|[]]]]; assumption.
Qed.

(** X4.  The extension under which a backup is stored is understood by the
    restore: for the compressor that [get_compressor_by_name] returns for
    any configured name, a file name that ends with a dot and the extension
    of that compressor is resolved by [get_compressor_by_filename] to a
    compressor with the same extension. *)
Theorem stored_extension_is_resolved name c stem :
  get_compressor_by_name name = Returned c ->
  exists c',
    get_compressor_by_filename (stem ++ "." ++ extension c) = Some c'
    /\ extension c' = extension c.
Proof.
  intros H. apply by_name_in_registry in H.
  unfold get_compressor_by_filename. rewrite by_extension_items. cbn [first_by_suffix].
  destruct H as [<-|[<-|[<-|[]]]]; cbn [extension gzip pigz zstd].
  - exists pigz. rewrite endswith_append by reflexivity. auto.
  - exists pigz. rewrite endswith_append by reflexivity. auto.
  - exists zstd. rewrite endswith_append_short by (simpl; lia).
    change (str.endswith ("." ++ "zst") ("." ++ "gz")) with false. cbn iota.
    rewrite endswith_append by reflexivity. auto.
Qed.

Lemma stored_extension_is_resolved_witness :
  get_compressor_by_name "gzip" = Returned gzip
  /\ exists c',
       get_compressor_by_filename ("A@bk2024-01-01_00-00-00-full" ++ "." ++ extension gzip)
       = Some c'
       /\ extension c' = extension gzip.
Proof.
  split; [reflexivity|].
  exact (stored_extension_is_resolved "gzip" gzip "A@bk2024-01-01_00-00-00-full" eq_refl).
Defined.

End Registry.

(** ** restore.py: more on the chain *)

Section Chain.
Import config restore.

Lemma parsed_in config backups r :
  In r (parsed config backups) <-> exists b, In b backups /\ parse_entry config b = Some r.
Proof.
  induction backups as [|b backups IH]; simpl.
  - split; [intros []|intros (b & [] & _)].
  - destruct (parse_entry config b) as [r0|] eqn:E; simpl; rewrite ?IH; split.
    + intros [<-|(b' & I & P)]; eauto.
    + intros (b' & [<-|I] & P); [left; congruence|right; eauto].
    + intros (b' & I & P); eauto.
    + intros (b' & [<-|I] & P); [congruence|eauto].
Qed.

Lemma parse_entry_fields config b r :
  parse_entry config b = Some r ->
  path r = Path b /\ size r = Size b
  /\ str.startswith (Path b) (zfs_dataset config ++ "@" ++ snapshot_prefix config) = true
  /\ suffix_of (Path b) = Some (match type r with FULL => "full" | INCREMENTAL => "incremental" end)
  /\ exists text,
       timestamp_text config (Path b) = Some text
       /\ datetime.strptime text TIMESTAMP_FORMAT = Returned (timestamp r).
Proof.
  unfold parse_entry, suffix_of, timestamp_text.
  destruct (str.startswith _ _); [|discriminate].
  destruct (str.rpartition (Path b) "-") as [[name rest]|]; [|discriminate].
  unfold BackupType_of.
  destruct (String.eqb (hd "" (str.split1 rest ".")) "full") eqn:Ef.
  - apply String.eqb_eq in Ef.
    destruct (str.split name (snapshot_prefix config)) as [[|p0 [|ts ps]]|]; try discriminate.
    destruct (datetime.strptime ts TIMESTAMP_FORMAT) as [d|] eqn:Ed; [|discriminate].
    intros [= <-]. simpl. rewrite Ef. repeat split; eauto.
  - destruct (String.eqb (hd "" (str.split1 rest ".")) "incremental") eqn:Ei; [|discriminate].
    apply String.eqb_eq in Ei.
    destruct (str.split name (snapshot_prefix config)) as [[|p0 [|ts ps]]|]; try discriminate.
    destruct (datetime.strptime ts TIMESTAMP_FORMAT) as [d|] eqn:Ed; [|discriminate].
    intros [= <-]. simpl. rewrite Ei. repeat split; eauto.
Qed.

(** X5.  Every record that [find_backup_chain] returns, the full one and
    each incremental, is read from an entry of the listing: it carries the
    path and the size of that entry, the path begins with the dataset, an
    at sign and the snapshot prefix, the text after the last hyphen and
    before the next dot is the type of the record, and the timestamp of the
    record is what [strptime] reads from the text between the prefix and
    the suffix.  The function invents no record. *)
Theorem find_backup_chain_records_are_listed backups config s full incrementals s' r
  (H : find_backup_chain backups config s = (Returned (full, incrementals), s'))
  (I : full = Some r \/ In r incrementals) :
  exists b,
    In b backups
    /\ parse_entry config b = Some r
    /\ path r = Path b /\ size r = Size b
    /\ str.startswith (Path b) (zfs_dataset config ++ "@" ++ snapshot_prefix config) = true
    /\ suffix_of (Path b)
       = Some (match type r with FULL => "full" | INCREMENTAL => "incremental" end)
    /\ exists text,
         timestamp_text config (Path b) = Some text
         /\ datetime.strptime text TIMESTAMP_FORMAT = Returned (timestamp r).
Proof.
  destruct (find_backup_chain_spec backups config s) as (s1 & evs & E & _).
  rewrite H in E. clear H.
  assert (P : In r (parsed config backups)).
  { apply (Permutation_in _ (sort_by_perm timestamp (parsed config backups))).
    destruct (find is_full (rev _)) as [f|] eqn:F.
    - injection E as -> -> _. destruct I as [[= ->]|I].
      + destruct (find_rev_some _ _ _ F) as (l1 & l2 & D & _). rewrite D. apply in_elt.
      + now apply filter_In in I.
    - injection E as -> -> _. destruct I as [I|[]]. discriminate. }
  apply parsed_in in P as (b & Ib & Pb).
  exists b. split; [exact Ib|]. split; [exact Pb|]. now apply parse_entry_fields.
Qed.

Lemma find_backup_chain_records_are_listed_witness :
  find_backup_chain listing_two_fulls example_config quiet_state
  = (Returned (Some newest_full_record, []), quiet_state)
  /\ (Some newest_full_record = Some newest_full_record \/ In newest_full_record [])
  /\ exists b,
       In b listing_two_fulls
       /\ parse_entry example_config b = Some newest_full_record
       /\ path newest_full_record = Path b /\ size newest_full_record = Size b
       /\ str.startswith (Path b)
            (zfs_dataset example_config ++ "@" ++ snapshot_prefix example_config) = true
       /\ suffix_of (Path b)
          = Some (match type newest_full_record with
                  | FULL => "full"
                  | INCREMENTAL => "incremental"
                  end)
       /\ exists text,
            timestamp_text example_config (Path b) = Some text
            /\ datetime.strptime text TIMESTAMP_FORMAT
               = Returned (timestamp newest_full_record).
Proof.
  assert (H : find_backup_chain listing_two_fulls example_config quiet_state
              = (Returned (Some newest_full_record, []), quiet_state))
    by (vm_compute; reflexivity).
  split; [exact H|]. split; [left; reflexivity|].
  exact (find_backup_chain_records_are_listed listing_two_fulls example_config quiet_state
           (Some newest_full_record) [] quiet_state newest_full_record H
           (or_introl eq_refl)).
Defined.

Lemma for_fold_app {A B} (body : B -> A -> M B) l1 l2 acc s :
  for_fold (l1 ++ l2) body acc s =
    match for_fold l1 body acc s with
    | (Returned a, s1) => for_fold l2 body a s1
    | (Raised e, s1) => (Raised e, s1)
    end.
Proof.
  revert acc s. induction l1 as [|x l1 IH]; intros acc s; [reflexivity|].
  cbn [app for_fold]. unfold bind.
  destruct (body acc x s) as [[a|e] s1]; [apply IH|reflexivity].
Qed.

(** X6.  An entry whose path does not begin with the dataset, an at sign and
    the snapshot prefix has no effect on [find_backup_chain]: with the
    entry anywhere in the listing, the result and the messages are those of
    the listing without it. *)
Theorem find_backup_chain_ignores_other_datasets before b after config s
  (H : str.startswith (Path b) (zfs_dataset config ++ "@" ++ snapshot_prefix config) = false) :
  find_backup_chain (before ++ b :: after) config s
  = find_backup_chain (before ++ after) config s.
Proof.
  unfold find_backup_chain, bind. rewrite !for_fold_app.
  destruct (for_fold before (chain_loop_body config) [] s) as [[acc|e] s1]; [|reflexivity].
  cbn [for_fold]. unfold bind at 1. unfold chain_loop_body at 1. rewrite H. reflexivity.
Qed.

Lemma find_backup_chain_ignores_other_datasets_witness :
  str.startswith (Path foreign_file)
    (zfs_dataset example_config ++ "@" ++ snapshot_prefix example_config) = false
  /\ find_backup_chain (listing_incrementals_only ++ foreign_file :: listing_two_fulls)
       example_config quiet_state
     = find_backup_chain (listing_incrementals_only ++ listing_two_fulls)
         example_config quiet_state.
Proof.
  split; [reflexivity|].
  exact (find_backup_chain_ignores_other_datasets listing_incrementals_only foreign_file
           listing_two_fulls example_config quiet_state eq_refl).
Defined.

(** *** Ties and the order of the listing *)

Lemma find_app {A} (p : A -> bool) l1 l2 :
  find p (l1 ++ l2) = match find p l1 with Some x => Some x | None => find p l2 end.
Proof.
  induction l1 as [|x l1 IH]; simpl; [reflexivity|]. destruct (p x); [reflexivity|exact IH].
Qed.

Lemma ltb_leb_trans a b c :
  datetime.ltb a b = true -> datetime.leb b c = true -> datetime.ltb a c = true.
Proof.
  intros H1 H2. destruct (datetime.ltb a c) eqn:E; [reflexivity|].
  apply ltb_false_leb in E.
  pose proof (leb_trans _ _ _ H2 E) as H3.
  apply ltb_not_leb in H1. congruence.
Qed.

(** Where a new element goes in a sorted list: behind the elements that are
    not greater, before the greater ones. *)
Lemma insert_by_split {A} (key : A -> datetime.t) x l :
  StronglySorted (key_le key) l ->
  exists l1 l2,
    l = l1 ++ l2 /\ insert_by key x l = l1 ++ x :: l2
    /\ (forall y, In y l1 -> datetime.ltb (key x) (key y) = false)
    /\ (forall y, In y l2 -> datetime.ltb (key x) (key y) = true).
Proof.
  induction 1 as [|y l Hs IH Hy]; simpl.
  - exists [], []. repeat split; auto; intros ? [].
  - destruct (datetime.ltb (key x) (key y)) eqn:E.
    + exists [], (y :: l). repeat split; auto; [intros ? []|].
      intros z [<-|Hz]; [exact E|].
      rewrite Forall_forall in Hy. eapply ltb_leb_trans; [exact E|now apply Hy].
    + destruct IH as (l1 & l2 & D & I & H1 & H2).
      exists (y :: l1), l2. rewrite I, D. repeat split; auto.
      intros z [<-|Hz]; auto.
Qed.

Lemma sort_by_snoc {A} (key : A -> datetime.t) l x :
  sort_by key (l ++ [x]) = insert_by key x (sort_by key l).
Proof. unfold sort_by. now rewrite fold_left_app. Qed.

Lemma latest_full_snoc l x : latest_full (l ++ [x]) = later_full (latest_full l) x.
Proof. unfold latest_full. now rewrite fold_left_app. Qed.

Lemma find_full_is_latest_full records :
  find is_full (rev (sort_by timestamp records)) = latest_full records.
Proof.
  induction records as [|x records IH] using rev_ind; [reflexivity|].
  rewrite sort_by_snoc, latest_full_snoc, <- IH.
  destruct (insert_by_split timestamp x (sort_by timestamp records) (sort_by_sorted _ _))
    as (l1 & l2 & D & I & H1 & H2).
  rewrite I, D, !rev_app_distr. cbn [rev]. rewrite <- app_assoc. cbn [app].
  rewrite !find_app. cbn [find]. unfold later_full.
  destruct (find is_full (rev l2)) as [f|] eqn:F2.
  - apply find_some in F2 as [If _]. apply in_rev in If.
    rewrite (H2 f If). now destruct (is_full x).
  - destruct (is_full x); [|reflexivity].
    destruct (find is_full (rev l1)) as [f|] eqn:F1; [|reflexivity].
    apply find_some in F1 as [If _]. apply in_rev in If.
    now rewrite (H1 f If).
Qed.

(** X7.  The full record that [find_backup_chain] returns is the one kept by
    reading the parsed records in the order of the listing and replacing
    the record kept so far by every full record that is not strictly older:
    among full backups with the same timestamp, the one listed last is
    restored. *)
Theorem find_backup_chain_keeps_last_listed_full backups config s :
  exists incrementals s',
    find_backup_chain backups config s
    = (Returned (latest_full (parsed config backups), incrementals), s').
Proof.
  destruct (find_backup_chain_spec backups config s) as (s' & evs & E & _).
  rewrite find_full_is_latest_full in E.
  destruct (latest_full (parsed config backups)); eauto.
Qed.

Lemma lex_eq a : forall b, datetime.lex a b = Eq -> a = b.
Proof.
  induction a as [|x a IH]; intros [|y b]; simpl; try discriminate; [reflexivity|].
  destruct (Z.compare_spec x y) as [Exy| |]; try discriminate.
  intros Hl. subst. f_equal. now apply IH.
Qed.

Lemma leb_antisym a b :
  datetime.leb a b = true -> datetime.leb b a = true -> a = b.
Proof.
  unfold datetime.leb, datetime.ltb, datetime.compare.
  rewrite (lex_opp (datetime.fields a) (datetime.fields b)).
  destruct (datetime.lex (datetime.fields a) (datetime.fields b)) eqn:E; simpl;
    try discriminate.
  intros _ _. apply lex_eq in E. destruct a, b. unfold datetime.fields in E. simpl in E.
  now injection E as -> -> -> -> -> -> ->.
Qed.

Lemma parsed_perm config l l' :
  Permutation l l' -> Permutation (parsed config l) (parsed config l').
Proof.
  induction 1; simpl.
  - constructor.
  - destruct (parse_entry config x); auto.
  - destruct (parse_entry config x), (parse_entry config y); auto. apply perm_swap.
  - etransitivity; eauto.
Qed.

Lemma NoDup_map_eq {A B} (f : A -> B) l x y :
  NoDup (map f l) -> In x l -> In y l -> f x = f y -> x = y.
Proof.
  induction l as [|a l IH]; simpl; [intros _ []|].
  intros N Hx Hy E. inversion N as [|? ? Na Nl]; subst.
  destruct Hx as [<-|Hx], Hy as [<-|Hy]; auto.
  - exfalso. apply Na. rewrite E. now apply in_map.
  - exfalso. apply Na. rewrite <- E. now apply in_map.
Qed.

(** A list with pairwise different keys has one sorted arrangement. *)
Lemma sorted_unique {A} (key : A -> datetime.t) l : forall l',
  NoDup (map key l) ->
  StronglySorted (key_le key) l -> StronglySorted (key_le key) l' ->
  Permutation l l' -> l = l'.
Proof.
  induction l as [|x l IH]; intros l' N S S' P.
  - apply Permutation_nil in P. now subst.
  - destruct l' as [|y l']; [apply Permutation_sym, Permutation_nil in P; discriminate|].
    inversion S as [|? ? Sl Hx]; subst. inversion S' as [|? ? Sl' Hy]; subst.
    rewrite Forall_forall in Hx, Hy.
    assert (Ixy : x = y).
    { assert (Iy : In y (x :: l)) by (apply (Permutation_in _ (Permutation_sym P)); now left).
      assert (Ix : In x (y :: l')) by (apply (Permutation_in _ P); now left).
      apply (NoDup_map_eq key (x :: l)); [exact N|now left|exact Iy|].
      destruct Iy as [->|Iy]; [reflexivity|].
      destruct Ix as [->|Ix]; [reflexivity|].
      apply leb_antisym; [apply Hx, Iy|apply Hy, Ix]. }
    subst y. f_equal. apply IH; auto.
    + simpl in N. now inversion N.
    + now apply Permutation_cons_inv in P.
Qed.

(** X8.  When the parsed records of a listing have pairwise different
    timestamps, the chain that [find_backup_chain] returns does not depend
    on the order of the listing. *)
Theorem find_backup_chain_order_independent backups backups' config s
  (P : Permutation backups backups')
  (N : NoDup (map timestamp (parsed config backups))) :
  exists chain s1 s2,
    find_backup_chain backups config s = (Returned chain, s1)
    /\ find_backup_chain backups' config s = (Returned chain, s2).
Proof.
  destruct (find_backup_chain_spec backups config s) as (s1 & e1 & E1 & _).
  destruct (find_backup_chain_spec backups' config s) as (s2 & e2 & E2 & _).
  assert (Q : sort_by timestamp (parsed config backups)
              = sort_by timestamp (parsed config backups')).
  { apply (sorted_unique timestamp).
    - eapply Permutation_NoDup; [|exact N].
      apply Permutation_map, Permutation_sym, sort_by_perm.
    - apply sort_by_sorted.
    - apply sort_by_sorted.
    - rewrite !sort_by_perm. now apply parsed_perm. }
  rewrite <- Q in E2. eexists _, s1, s2. split; [exact E1|exact E2].
Qed.

Lemma find_backup_chain_order_independent_witness :
  Permutation listing_one_chain (rev listing_one_chain)
  /\ NoDup (map timestamp (parsed example_config listing_one_chain))
  /\ exists chain s1 s2,
       find_backup_chain listing_one_chain example_config quiet_state = (Returned chain, s1)
       /\ find_backup_chain (rev listing_one_chain) example_config quiet_state
          = (Returned chain, s2).
Proof.
  assert (N : NoDup (map timestamp (parsed example_config listing_one_chain))).
  { vm_compute. repeat (constructor; [simpl; intuition discriminate|]). constructor. }
  split; [apply Permutation_rev|]. split; [exact N|].
  exact (find_backup_chain_order_independent listing_one_chain (rev listing_one_chain)
           example_config quiet_state (Permutation_rev listing_one_chain) N).
Defined.

End Chain.

(** ** restore.py: running the restore *)

Section RestoreRun.
Import config restore compression.

Lemma commands_app e1 e2 : commands (e1 ++ e2) = commands e1 ++ commands e2.
Proof. unfold commands. apply flat_map_app. Qed.

Lemma chain_loop_body_advance config acc b s :
  exists evs,
    chain_loop_body config acc b s
    = (Returned (acc ++ entry_records config b)%list, advance s evs 0 0)
    /\ commands evs = [].
Proof.
  unfold chain_loop_body, entry_records, parse_entry, str.rsplit1.
  destruct (str.startswith _ _); cbn [negb].
  2:{ rewrite app_nil_r. exists []. rewrite advance_nil. split; reflexivity. }
  destruct (str.rpartition (Path b) "-") as [[name rest]|]; cbn [length Nat.eqb negb].
  2:{ rewrite app_nil_r. exists []. rewrite advance_nil. split; reflexivity. }
  cbn [getitem nth_error]. unfold bind at 1, lift at 1.
  destruct (split1_cons rest ".") as (h & t & ->). cbn [hd].
  assert (Hp : unpack2 (firstn 2 ((h :: t) ++ [""])%list) = Returned (h, hd "" (t ++ [""])%list))
    by (destruct t; reflexivity).
  unfold bind at 1, lift at 1. rewrite Hp. cbn [fst].
  unfold bind at 1, try_except at 1, bind at 1, lift at 1.
  destruct (BackupType_of h) as [ty|e] eqn:Hty.
  2:{ apply BackupType_of_raises in Hty as ->. rewrite app_nil_r. rewrite print_then.
      eexists. split; reflexivity. }
  cbn [ret]. unfold try_except, bind at 1, lift at 1. cbn [getitem nth_error].
  unfold bind at 1, lift at 1.
  destruct (str.split name (snapshot_prefix config)) as [pieces|e] eqn:Hsp.
  2:{ apply split_raises in Hsp as ->. rewrite app_nil_r. rewrite print_then.
      eexists. split; reflexivity. }
  unfold bind at 1, lift at 1.
  destruct pieces as [|p0 [|ts pieces]]; cbn [getitem nth_error].
  1,2: rewrite app_nil_r, print_then; eexists; split; reflexivity.
  unfold bind at 1, lift at 1.
  destruct (datetime.strptime ts TIMESTAMP_FORMAT) as [d|e] eqn:Hd.
  - exists []. rewrite advance_nil. split; reflexivity.
  - apply strptime_raises in Hd as ->. rewrite app_nil_r, print_then.
    eexists. split; reflexivity.
Qed.

Lemma parse_loop_advance config l : forall acc s,
  exists evs,
    for_fold l (chain_loop_body config) acc s
    = (Returned (acc ++ parsed config l), advance s evs 0 0)
    /\ commands evs = [].
Proof.
  induction l as [|b l IH]; intros acc s; simpl.
  - rewrite app_nil_r. exists []. rewrite advance_nil. split; reflexivity.
  - destruct (chain_loop_body_advance config acc b s) as (e1 & H1 & C1).
    destruct (IH (acc ++ entry_records config b) (advance s e1 0 0)) as (e2 & H2 & C2).
    exists (e1 ++ e2). split; [|now rewrite commands_app, C1, C2].
    unfold bind. rewrite H1, H2, advance_advance. f_equal. f_equal.
    rewrite <- app_assoc. f_equal. unfold entry_records.
    destruct (parse_entry config b); reflexivity.
Qed.

(** [find_backup_chain] prints and does nothing else to the world. *)
Lemma find_backup_chain_advance backups config s :
  exists chain evs,
    find_backup_chain backups config s = (Returned chain, advance s evs 0 0)
    /\ commands evs = [].
Proof.
  destruct (parse_loop_advance config backups [] s) as (evs & H & C).
  simpl in H. unfold find_backup_chain, bind. rewrite H.
  destruct (parsed config backups) as [|r0 rs];
    [|destruct (find is_full (rev (sort_by timestamp (r0 :: rs))))];
    eexists _, _; (split; [reflexivity|exact C]).
Qed.

(** One run of the restore command, whatever the pipeline is. *)
Ltac restore_run s :=
  rewrite !print_then, !advance_advance; cbn [Nat.add];
  unfold try_except, bind at 1;
  destruct (Z.eq_dec (returncode (procs s (nproc s))) 0) as [Hr|Hr];
    [rewrite subprocess_run_ok by assumption
    |rewrite subprocess_run_failed by assumption];
  cbn beta iota;
  rewrite print_then; cbn [ret]; rewrite !advance_advance;
  cbn [Nat.add procs nproc advance];
  try (rewrite Hr; cbn [Z.eqb]);
  try (apply Z.eqb_neq in Hr; rewrite Hr).

Lemma restore_backup_result config backup_path target s :
  sigterm s = None ->
  exists evs,
    restore_backup config backup_path target s
    = (Returned (returncode (procs s (nproc s)) =? 0), advance s evs 1 1)
    /\ commands evs = [restore_cmd config backup_path target].
Proof.
  intros Hs. unfold restore_backup, restore_cmd.
  destruct (get_compressor_by_filename backup_path) as [c|] eqn:X.
  - destruct (by_filename_cases _ _ X) as [->| ->]; cbn [option_map truthy decompress_cmd pigz zstd].
    all: unfold bind at 1, ret at 1; restore_run s.
    all: eexists; (split; reflexivity).
  - cbn [option_map truthy]. unfold bind at 1. rewrite print_then. unfold ret at 1.
    restore_run s.
    all: eexists; (split; reflexivity).
Qed.

(** X9.  Without a termination signal [restore_backup] never raises: it
    runs exactly one command, the download piped through the decompressor
    of the extension, if there is one, into [zfs receive -F] of the target,
    and returns whether that command exited with status zero; for a path
    with no known extension it warns and pipes the download into
    [zfs receive] as it is. *)
Theorem restore_backup_runs_one_command config backup_path target s
  (Hsig : sigterm s = None) :
  exists evs,
    restore_backup config backup_path target s
    = (Returned (returncode (procs s (nproc s)) =? 0), advance s evs 1 1)
    /\ commands evs = [restore_cmd config backup_path target]
    /\ (get_compressor_by_filename backup_path = None ->
        In (Print (unknown_compression_msg backup_path)) evs).
Proof.
  unfold restore_backup, restore_cmd.
  destruct (get_compressor_by_filename backup_path) as [c|] eqn:X.
  - destruct (by_filename_cases _ _ X) as [->| ->]; cbn [option_map truthy decompress_cmd pigz zstd].
    all: unfold bind at 1, ret at 1; restore_run s.
    all: eexists; (split; [reflexivity|split; [reflexivity|discriminate]]).
  - cbn [option_map truthy]. unfold bind at 1. rewrite print_then. unfold ret at 1.
    restore_run s.
    all: eexists; (split; [reflexivity|split; [reflexivity|intros _; now left]]).
Qed.

Lemma restore_backup_runs_one_command_witness :
  sigterm (failing_at 0) = None
  /\ exists evs,
       restore_backup example_config "A@bk2024-01-01_00-00-00-full.lz4" "tank/restored"
         (failing_at 0)
       = (Returned (returncode (procs (failing_at 0) (nproc (failing_at 0))) =? 0),
          advance (failing_at 0) evs 1 1)
       /\ commands evs
          = [restore_cmd example_config "A@bk2024-01-01_00-00-00-full.lz4" "tank/restored"]
       /\ (get_compressor_by_filename "A@bk2024-01-01_00-00-00-full.lz4" = None ->
           In (Print (unknown_compression_msg "A@bk2024-01-01_00-00-00-full.lz4")) evs).
Proof.
  split; [reflexivity|].
  exact (restore_backup_runs_one_command example_config "A@bk2024-01-01_00-00-00-full.lz4"
           "tank/restored" (failing_at 0) eq_refl).
Defined.

End RestoreRun.

(** ** restore.py: the run *)

Section RestoreMain.
Import config restore.
Variable list_backups : BackupConfig -> M (list RcloneFile).
Variable human_readable_size : Z -> string.
Variable stdin_line : string.
Variables (config : BackupConfig) (target : string).

Lemma print_run msg st : print msg st = (Returned tt, advance st [Print msg] 0 0).
Proof. destruct st. reflexivity. Qed.

Lemma find_backup_chain_result backups s :
  exists evs,
    find_backup_chain backups config s = (Returned (chain_of config backups), advance s evs 0 0)
    /\ commands evs = [].
Proof.
  destruct (find_backup_chain_advance backups config s) as (chain & evs & E & C).
  destruct (find_backup_chain_spec backups config s) as (s' & e' & E' & _).
  exists evs. split; [|exact C]. rewrite E in E'. injection E' as -> _. exact E.
Qed.

Lemma listing_of_incrementals incs : forall total s,
  exists evs total',
    for_fold incs
      (fun total_size inc =>
         print ("  Inc:  " ++ path inc ++ " (" ++ datetime.str (timestamp inc)
                  ++ ") - " ++ human_readable_size (size inc)) ;;
         ret (total_size + size inc))
      total s
    = (Returned total', advance s evs 0 0)
    /\ commands evs = [].
Proof.
  induction incs as [|inc incs IH]; intros total s.
  - exists [], total. simpl. unfold ret. rewrite advance_nil. auto.
  - cbn [for_fold]. unfold bind at 1. rewrite print_then. cbn [ret].
    destruct (IH (total + size inc) (advance s [Print ("  Inc:  " ++ path inc ++ " (" ++ datetime.str (timestamp inc)
                  ++ ") - " ++ human_readable_size (size inc))] 0 0)) as (evs & total' & E & C).
    rewrite E, advance_advance. eexists _, _. split; [reflexivity|].
    rewrite commands_app, C. reflexivity.
Qed.

Lemma restore_loop_all_succeed incs : forall s,
  sigterm s = None ->
  (forall j, (j < length incs)%nat -> returncode (procs s (j + nproc s)) = 0) ->
  exists evs,
    restore_loop config target incs s = (Returned tt, advance s evs (length incs) (length incs))
    /\ commands evs = restore_cmds config target incs.
Proof.
  induction incs as [|inc incs IH]; intros s Hs Hok.
  - exists []. unfold restore_loop. simpl. unfold ret. rewrite advance_nil. auto.
  - unfold restore_loop. cbn [for_each]. unfold bind at 1, bind at 1.
    destruct (restore_backup_result config (path inc) target s Hs) as (e1 & -> & C1).
    pose proof (Hok 0%nat ltac:(simpl; lia)) as H0. simpl in H0. rewrite H0. cbn [Z.eqb negb ret].
    destruct (IH (advance s e1 1 1) Hs) as (e2 & E2 & C2).
    { intros j Hj. cbn [procs nproc advance]. rewrite Nat.add_succ_r.
      apply (Hok (S j)). simpl. lia. }
    unfold restore_loop in E2. rewrite E2, advance_advance.
    exists (e1 ++ e2). split.
    + f_equal. f_equal; simpl; lia.
    + rewrite commands_app, C1, C2. reflexivity.
Qed.

Lemma restore_loop_stops done x rest : forall s,
  sigterm s = None ->
  (forall j, (j < length done)%nat -> returncode (procs s (j + nproc s)) = 0) ->
  returncode (procs s (length done + nproc s)) <> 0 ->
  exists evs,
    restore_loop config target (done ++ x :: rest) s
    = (Raised (SystemExit 1), advance s evs (S (length done)) (S (length done)))
    /\ commands evs = restore_cmds config target (done ++ [x]).
Proof.
  induction done as [|inc done IH]; intros s Hs Hok Hfail.
  - unfold restore_loop. cbn [app for_each]. unfold bind at 1, bind at 1.
    destruct (restore_backup_result config (path x) target s Hs) as (e1 & -> & C1).
    simpl in Hfail. apply Z.eqb_neq in Hfail. rewrite Hfail. cbn [negb].
    rewrite print_then. unfold sys_exit, raise. rewrite advance_advance.
    eexists. split; [reflexivity|]. rewrite commands_app, C1. reflexivity.
  - unfold restore_loop. cbn [app for_each]. unfold bind at 1, bind at 1.
    destruct (restore_backup_result config (path inc) target s Hs) as (e1 & -> & C1).
    pose proof (Hok 0%nat ltac:(simpl; lia)) as H0. simpl in H0. rewrite H0. cbn [Z.eqb negb ret].
    destruct (IH (advance s e1 1 1) Hs) as (e2 & E2 & C2).
    { intros j Hj. cbn [procs nproc advance]. rewrite Nat.add_succ_r.
      apply (Hok (S j)). simpl. lia. }
    { cbn [procs nproc advance]. rewrite Nat.add_succ_r. exact Hfail. }
    unfold restore_loop in E2. rewrite E2, advance_advance.
    exists (e1 ++ e2). split.
    + f_equal. f_equal; simpl; lia.
    + rewrite commands_app, C1, C2. reflexivity.
Qed.

Section Listed.
Variables (s s1 : state) (backups : list RcloneFile).
Hypothesis Hlist : list_backups config (restore_started target s) = (Returned backups, s1).

(** [main] up to the point where the chain is known. *)
Lemma main_until_chain :
  exists evs,
    commands evs = []
    /\ main list_backups human_readable_size stdin_line config target s
    =
       (let '(last_full, incrementals) := chain_of config backups in
        match last_full with
        | None =>
            print "No full backup found. Cannot proceed with restore." ;;
            sys_exit 1
        | Some last_full =>
            print (LF ++ "Backup chain to be restored:") ;;
            print ("  Full: " ++ path last_full ++ " (" ++ datetime.str (timestamp last_full)
                     ++ ") - " ++ human_readable_size (size last_full)) ;;
            total_size <-
              for_fold incrementals
                (fun total_size inc =>
                   print ("  Inc:  " ++ path inc ++ " (" ++ datetime.str (timestamp inc)
                            ++ ") - " ++ human_readable_size (size inc)) ;;
                   ret (total_size + size inc))
                (size last_full) ;;
            print (LF ++ "Total estimated size to download: "
                     ++ human_readable_size total_size) ;;
            print ("This will restore the backups to '" ++ target ++ "'.") ;;
            print "WARNING: This will destroy any existing data in the target dataset." ;;
            confirm <- input stdin_line "Are you sure you want to continue? (yes/no): " ;;
            if negb (String.eqb (str.lower confirm) "yes") then
              print "Restore cancelled." ;;
              sys_exit 0
            else
              restored <- restore_backup config (path last_full) target ;;
              if negb restored then
                print "Aborting due to error in full backup restore." ;;
                sys_exit 1
              else
                restore_loop config target incrementals ;;
                print (LF ++ "Restore completed successfully!")
        end) (advance s1 evs 0 0).
Proof.
  unfold main. rewrite !print_then, advance_advance. cbn [app Nat.add].
  unfold bind at 1. fold (restore_started target s). rewrite Hlist.
  rewrite print_then. unfold bind at 1.
  destruct (find_backup_chain_result backups
              (advance s1 [Print ("Found " ++ str_of_Z (Z.of_nat (length backups))
                                    ++ " remote files.")] 0 0)) as (evs & -> & C).
  rewrite advance_advance. cbn [Nat.add].
  eexists. split; [|reflexivity]. rewrite commands_app, C. reflexivity.
Qed.

(** X10.  When the chain of the listing has no full backup, the restore
    [main] exits with status 1 after the listing, and runs no command. *)
Theorem restore_main_without_full incrementals
  (Hchain : chain_of config backups = (None, incrementals)) :
  exists evs,
    main list_backups human_readable_size stdin_line config target s
    = (Raised (SystemExit 1), advance s1 evs 0 0) /\ commands evs = [].
Proof.
  destruct main_until_chain as (evs & C & ->). rewrite Hchain.
  rewrite print_then, advance_advance. unfold sys_exit, raise.
  eexists. split; [reflexivity|]. rewrite commands_app, C. reflexivity.
Qed.

(** [main] up to the answer at the prompt. *)
Lemma main_until_answer full incrementals
  (Hchain : chain_of config backups = (Some full, incrementals)) :
  exists evs,
    commands evs = []
    /\ main list_backups human_readable_size stdin_line config target s
    =
       (if negb (String.eqb (str.lower stdin_line) "yes") then
          print "Restore cancelled." ;;
          sys_exit 0
        else
          restored <- restore_backup config (path full) target ;;
          if negb restored then
            print "Aborting due to error in full backup restore." ;;
            sys_exit 1
          else
            restore_loop config target incrementals ;;
            print (LF ++ "Restore completed successfully!")) (advance s1 evs 0 0).
Proof.
  destruct main_until_chain as (e0 & C0 & ->). rewrite Hchain.
  rewrite !print_then, !advance_advance. unfold bind at 1.
  match goal with |- context [for_fold incrementals ?f ?a ?st] =>
    destruct (listing_of_incrementals incrementals a st) as (e1 & total & -> & C1) end.
  rewrite !print_then, !advance_advance. unfold bind at 1, input at 1.
  rewrite print_then. cbn [ret]. rewrite !advance_advance. cbn [Nat.add].
  eexists. split; [|reflexivity].
  rewrite !commands_app, C0, C1. reflexivity.
Qed.

(** X11.  When the answer at the prompt, in lower case, is not [yes], the
    restore [main] exits with status 0, and runs no command: nothing is
    downloaded and nothing is received before the user has agreed. *)
Theorem restore_main_declined full incrementals
  (Hchain : chain_of config backups = (Some full, incrementals))
  (Hno : String.eqb (str.lower stdin_line) "yes" = false) :
  exists evs,
    main list_backups human_readable_size stdin_line config target s
    = (Raised (SystemExit 0), advance s1 evs 0 0) /\ commands evs = [].
Proof.
  destruct (main_until_answer full incrementals Hchain) as (evs & C & ->).
  rewrite Hno. cbn [negb]. rewrite print_then, advance_advance. unfold sys_exit, raise.
  eexists. split; [reflexivity|]. rewrite commands_app, C. reflexivity.
Qed.

(** X12.  When the answer is [yes] in any case of the letters and every
    restore command exits with status zero, the restore [main] returns
    after exactly one restore command for each backup of the chain: the
    full backup first, then the incrementals in the order of the chain. *)
Theorem restore_main_restores_chain_in_order full incrementals
  (Hchain : chain_of config backups = (Some full, incrementals))
  (Hyes : String.eqb (str.lower stdin_line) "yes" = true)
  (Hsig : sigterm s1 = None)
  (Hok : forallb (fun j => returncode (procs s1 (j + nproc s1)) =? 0)
                 (seq 0 (S (length incrementals))) = true) :
  exists evs,
    main list_backups human_readable_size stdin_line config target s
    = (Returned tt,
           advance s1 evs (S (length incrementals)) (S (length incrementals)))
    /\ commands evs = restore_cmds config target (full :: incrementals).
Proof.
  destruct (main_until_answer full incrementals Hchain) as (e0 & C0 & ->).
  rewrite Hyes. cbn [negb]. unfold bind at 1.
  rewrite forallb_forall in Hok.
  assert (Hok' : forall j, (j < S (length incrementals))%nat ->
                           returncode (procs s1 (j + nproc s1)) = 0).
  { intros j Hj. apply Z.eqb_eq, Hok, in_seq. lia. }
  destruct (restore_backup_result config (path full) target (advance s1 e0 0 0) Hsig)
    as (e1 & -> & C1).
  cbn [procs nproc advance Nat.add].
  pose proof (Hok' 0%nat ltac:(lia)) as H0. simpl in H0. rewrite H0. cbn [Z.eqb negb].
  rewrite advance_advance. unfold bind at 1.
  destruct (restore_loop_all_succeed incrementals (advance s1 (e0 ++ e1) (1 + 0) (1 + 0)) Hsig)
    as (e2 & -> & C2).
  { intros j Hj. cbn [procs nproc advance Nat.add]. rewrite Nat.add_succ_r.
    apply (Hok' (S j)). lia. }
  cbn beta iota. rewrite print_run, !advance_advance.
  eexists. split.
  - f_equal. f_equal; lia.
  - rewrite !commands_app, C0, C1, C2. cbn. now rewrite app_nil_r.
Qed.

(** X13.  When the answer is [yes] and a restore command of the chain fails
    after the commands of the backups before it have succeeded, the restore
    [main] exits with status 1 and has run the commands of the chain up to
    the failing one and none after it: no incremental is received on top
    of a failed restore. *)
Theorem restore_main_stops_at_first_failure full incrementals done x rest
  (Hchain : chain_of config backups = (Some full, incrementals))
  (Hyes : String.eqb (str.lower stdin_line) "yes" = true)
  (Hsig : sigterm s1 = None)
  (Hsplit : full :: incrementals = done ++ x :: rest)
  (Hok : forallb (fun j => returncode (procs s1 (j + nproc s1)) =? 0)
                 (seq 0 (length done)) = true)
  (Hfail : returncode (procs s1 (length done + nproc s1)) <> 0) :
  exists evs,
    main list_backups human_readable_size stdin_line config target s
    = (Raised (SystemExit 1), advance s1 evs (S (length done)) (S (length done)))
    /\ commands evs = restore_cmds config target (done ++ [x]).
Proof.
  destruct (main_until_answer full incrementals Hchain) as (e0 & C0 & ->).
  rewrite Hyes. cbn [negb]. unfold bind at 1.
  rewrite forallb_forall in Hok.
  assert (Hok' : forall j, (j < length done)%nat ->
                           returncode (procs s1 (j + nproc s1)) = 0).
  { intros j Hj. apply Z.eqb_eq, Hok, in_seq. lia. }
  destruct (restore_backup_result config (path full) target (advance s1 e0 0 0) Hsig)
    as (e1 & -> & C1).
  cbn [procs nproc advance Nat.add].
  destruct done as [|f done].
  - cbn [app] in Hsplit. injection Hsplit as <- _.
    cbn [length Nat.add] in Hfail. apply Z.eqb_neq in Hfail. rewrite Hfail. cbn [negb].
    rewrite print_then, !advance_advance. unfold sys_exit, raise.
    eexists. split; [reflexivity|]. rewrite !commands_app, C0, C1. reflexivity.
  - cbn [app] in Hsplit. injection Hsplit as <- ->.
    pose proof (Hok' 0%nat ltac:(simpl; lia)) as H0. simpl in H0. rewrite H0. cbn [Z.eqb negb].
    rewrite advance_advance. unfold bind at 1.
    destruct (restore_loop_stops done x rest (advance s1 (e0 ++ e1) (1 + 0) (1 + 0)) Hsig)
      as (e2 & -> & C2).
    { intros j Hj. cbn [procs nproc advance Nat.add]. rewrite Nat.add_succ_r.
      apply (Hok' (S j)). simpl. lia. }
    { cbn [procs nproc advance Nat.add]. rewrite Nat.add_succ_r. exact Hfail. }
    rewrite !advance_advance.
    eexists. split.
    + f_equal. f_equal; simpl; lia.
    + rewrite !commands_app, C0, C1, C2. reflexivity.
Qed.

End Listed.

End RestoreMain.

Lemma restore_main_without_full_witness :
  returns_listing listing_incrementals_only example_config
    (restore_started "tank/restored" quiet_state)
  = (Returned listing_incrementals_only, restore_started "tank/restored" quiet_state)
  /\ chain_of example_config listing_incrementals_only = (None, [])
  /\ exists evs,
       restore.main (returns_listing listing_incrementals_only) bytes_text "yes"
         example_config "tank/restored" quiet_state
       = (Raised (SystemExit 1), advance (restore_started "tank/restored" quiet_state) evs 0 0)
       /\ commands evs = [].
Proof.
  assert (C : chain_of example_config listing_incrementals_only = (None, []))
    by (vm_compute; reflexivity).
  split; [reflexivity|]. split; [exact C|].
  exact (restore_main_without_full (returns_listing listing_incrementals_only) bytes_text
           "yes" example_config "tank/restored" quiet_state
           (restore_started "tank/restored" quiet_state) listing_incrementals_only
           eq_refl [] C).
Defined.

Lemma restore_main_declined_witness :
  returns_listing listing_one_chain example_config
    (restore_started "tank/restored" quiet_state)
  = (Returned listing_one_chain, restore_started "tank/restored" quiet_state)
  /\ chain_of example_config listing_one_chain = (Some one_chain_full, one_chain_incrementals)
  /\ String.eqb (str.lower "y") "yes" = false
  /\ exists evs,
       restore.main (returns_listing listing_one_chain) bytes_text "y"
         example_config "tank/restored" quiet_state
       = (Raised (SystemExit 0), advance (restore_started "tank/restored" quiet_state) evs 0 0)
       /\ commands evs = [].
Proof.
  assert (C : chain_of example_config listing_one_chain
              = (Some one_chain_full, one_chain_incrementals))
    by (vm_compute; reflexivity).
  split; [reflexivity|]. split; [exact C|]. split; [reflexivity|].
  exact (restore_main_declined (returns_listing listing_one_chain) bytes_text
           "y" example_config "tank/restored" quiet_state
           (restore_started "tank/restored" quiet_state) listing_one_chain
           eq_refl one_chain_full one_chain_incrementals C eq_refl).
Defined.

Lemma restore_main_restores_chain_in_order_witness :
  returns_listing listing_one_chain example_config
    (restore_started "tank/restored" quiet_state)
  = (Returned listing_one_chain, restore_started "tank/restored" quiet_state)
  /\ chain_of example_config listing_one_chain = (Some one_chain_full, one_chain_incrementals)
  /\ String.eqb (str.lower "Yes") "yes" = true
  /\ sigterm (restore_started "tank/restored" quiet_state) = None
  /\ forallb (fun j => returncode (procs (restore_started "tank/restored" quiet_state)
                                         (j + nproc (restore_started "tank/restored"
                                                       quiet_state))) =? 0)
             (seq 0 (S (length one_chain_incrementals))) = true
  /\ exists evs,
       restore.main (returns_listing listing_one_chain) bytes_text "Yes"
         example_config "tank/restored" quiet_state
       = (Returned tt,
          advance (restore_started "tank/restored" quiet_state) evs
            (S (length one_chain_incrementals)) (S (length one_chain_incrementals)))
       /\ commands evs
          = restore_cmds example_config "tank/restored" (one_chain_full :: one_chain_incrementals).
Proof.
  assert (C : chain_of example_config listing_one_chain
              = (Some one_chain_full, one_chain_incrementals))
    by (vm_compute; reflexivity).
  split; [reflexivity|]. split; [exact C|]. split; [reflexivity|]. split; [reflexivity|].
  split; [reflexivity|].
  exact (restore_main_restores_chain_in_order (returns_listing listing_one_chain) bytes_text
           "Yes" example_config "tank/restored" quiet_state
           (restore_started "tank/restored" quiet_state) listing_one_chain
           eq_refl one_chain_full one_chain_incrementals C eq_refl eq_refl eq_refl).
Defined.

Lemma restore_main_stops_at_first_failure_witness :
  returns_listing listing_one_chain example_config
    (restore_started "tank/restored" (failing_at 1))
  = (Returned listing_one_chain, restore_started "tank/restored" (failing_at 1))
  /\ chain_of example_config listing_one_chain = (Some one_chain_full, one_chain_incrementals)
  /\ String.eqb (str.lower "yes") "yes" = true
  /\ sigterm (restore_started "tank/restored" (failing_at 1)) = None
  /\ one_chain_full :: one_chain_incrementals
     = [one_chain_full] ++ hd one_chain_full one_chain_incrementals
                        :: tl one_chain_incrementals
  /\ forallb (fun j => returncode (procs (restore_started "tank/restored" (failing_at 1))
                                         (j + nproc (restore_started "tank/restored"
                                                       (failing_at 1)))) =? 0)
             (seq 0 (length [one_chain_full])) = true
  /\ returncode (procs (restore_started "tank/restored" (failing_at 1))
                       (length [one_chain_full]
                        + nproc (restore_started "tank/restored" (failing_at 1)))) <> 0
  /\ exists evs,
       restore.main (returns_listing listing_one_chain) bytes_text "yes"
         example_config "tank/restored" (failing_at 1)
       = (Raised (SystemExit 1),
          advance (restore_started "tank/restored" (failing_at 1)) evs
            (S (length [one_chain_full])) (S (length [one_chain_full])))
       /\ commands evs
          = restore_cmds example_config "tank/restored"
              ([one_chain_full] ++ [hd one_chain_full one_chain_incrementals]).
Proof.
  assert (C : chain_of example_config listing_one_chain
              = (Some one_chain_full, one_chain_incrementals))
    by (vm_compute; reflexivity).
  assert (F : returncode (procs (restore_started "tank/restored" (failing_at 1))
                            (length [one_chain_full]
                             + nproc (restore_started "tank/restored" (failing_at 1)))) <> 0)
    by (vm_compute; discriminate).
  split; [reflexivity|]. split; [exact C|]. split; [reflexivity|]. split; [reflexivity|].
  split; [reflexivity|]. split; [reflexivity|]. split; [exact F|].
  exact (restore_main_stops_at_first_failure (returns_listing listing_one_chain) bytes_text
           "yes" example_config "tank/restored" (failing_at 1)
           (restore_started "tank/restored" (failing_at 1)) listing_one_chain
           eq_refl one_chain_full one_chain_incrementals [one_chain_full]
           (hd one_chain_full one_chain_incrementals) (tl one_chain_incrementals)
           C eq_refl eq_refl eq_refl eq_refl F).
Defined.

(** ** backup.py: more on deletion and pruning *)

Section Deletion.
Import config backup.











(** *** Pruning that deletes nothing *)

(** X17.  With a positive retention, [prune_snapshots] does what the listing
    does and nothing else whenever there is nothing to prune: when the
    listing names no more snapshots than the retention it returns in the
    state in which the listing ended, with no message and no deletion, and
    when the listing fails its error is raised to the caller. *)
Theorem prune_snapshots_within_retention config s o s1
  (Hr : 0 < snapshot_retention config)
  (Hlist : get_snapshots config s = (o, s1))
  (Hfew : match o with
          | Returned snapshots => Z.of_nat (length snapshots) <= snapshot_retention config
          | Raised _ => True
          end) :
  prune_snapshots config s
  = (match o with Returned _ => Returned tt | Raised e => Raised e end, s1).
Proof.
  unfold prune_snapshots.
  replace (snapshot_retention config <=? 0) with false by (symmetry; apply Z.leb_gt; lia).
  unfold bind. rewrite Hlist. destruct o as [snapshots|e]; [|reflexivity].
  replace (Z.of_nat (length snapshots) >? snapshot_retention config) with false; [reflexivity|].
  symmetry. rewrite Z.gtb_ltb. apply Z.ltb_ge. lia.
Qed.

Lemma prune_snapshots_within_retention_witness :
  0 < snapshot_retention example_config
  /\ get_snapshots example_config quiet_state
     = (Returned [], advance quiet_state [Run (list_cmd example_config)] 1 1)
  /\ Z.of_nat (length (@nil string)) <= snapshot_retention example_config
  /\ prune_snapshots example_config quiet_state
     = (Returned tt, advance quiet_state [Run (list_cmd example_config)] 1 1).
Proof.
  assert (F : Z.of_nat (length (@nil string)) <= snapshot_retention example_config)
    by (vm_compute; discriminate).
  split; [reflexivity|]. split; [reflexivity|]. split; [exact F|].
  exact (prune_snapshots_within_retention example_config quiet_state (Returned [])
           (advance quiet_state [Run (list_cmd example_config)] 1 1) eq_refl eq_refl F).
Defined.

End Deletion.

(** ** backup.py: the run and its interruption *)

Section BackupRun.
Import config backup compression.



Lemma tick_at s : signal_now s = false -> tick s = (Returned tt, advance s [] 0 1).
Proof.
  unfold signal_now, tick, advance, with_ticks. destruct s as [pr np sg tk ck kf ns bp lg].
  cbn [sigterm ticks procs nproc clock killpg_finds_no_process new_snapshot backup_process log].
  rewrite app_nil_r. destruct sg as [n|]; [|reflexivity]. now intros ->.
Qed.


Lemma emit_run e s : emit e s = (Returned tt, advance s [e] 0 0).
Proof. destruct s. reflexivity. Qed.

Lemma subprocess_run_at cmd s :
  signal_now s = false ->
  subprocess_run cmd true s =
    (if returncode (procs s (nproc s)) =? 0 then Returned (procs s (nproc s))
     else Raised (CalledProcessError (returncode (procs s (nproc s)))
                                     (stderr (procs s (nproc s)))),
     advance s [Run cmd] 1 1).
Proof.
  intros H. unfold subprocess_run, bind. rewrite emit_run, tick_at by exact H.
  rewrite advance_advance. unfold reap. cbn [procs nproc advance Nat.add andb].
  destruct (returncode (procs s (nproc s)) =? 0); cbn [negb];
    unfold ret, raise, with_nproc, advance; destruct s; reflexivity.
Qed.





Lemma get_snapshots_at config s :
  signal_now s = false ->
  get_snapshots config s =
    (if returncode (procs s (nproc s)) =? 0
     then Returned (listed config (stdout (procs s (nproc s))))
     else Raised (CalledProcessError (returncode (procs s (nproc s)))
                                     (stderr (procs s (nproc s)))),
     advance s [Run (list_cmd config)] 1 1).
Proof.
  intros H. unfold get_snapshots. fold (list_cmd config). unfold bind at 1.
  rewrite subprocess_run_at by exact H.
  destruct (returncode (procs s (nproc s)) =? 0); reflexivity.
Qed.

Lemma create_snapshot_at name s :
  signal_now s = false ->
  create_snapshot name s =
    (if returncode (procs s (nproc s)) =? 0 then Returned tt
     else Raised (CalledProcessError (returncode (procs s (nproc s)))
                                     (stderr (procs s (nproc s)))),
     advance s [Run ("zfs snapshot " ++ name)] 1 1).
Proof.
  intros H. unfold create_snapshot, bind. rewrite subprocess_run_at by exact H.
  destruct (returncode (procs s (nproc s)) =? 0); reflexivity.
Qed.

Lemma backup_snapshot_trace config c name latest s :
  get_compressor_by_name (compressor config) = Returned c ->
  latest = None \/ truthy latest = true ->
  backup_snapshot config name latest s
  = (Returned None,
     advance s [Print (creating_msg latest name);
                Print ("Running backup: " ++ pipeline config c latest name);
                Popen (pipeline config c latest name)] 0 0).
Proof.
  intros Hc Hl. unfold backup_snapshot. rewrite Hc. unfold bind at 1, lift at 1.
  destruct Hl as [->|Hl].
  - cbn [truthy]. unfold bind at 1. rewrite print_then. cbn [ret].
    rewrite print_then. unfold bind. rewrite emit_run. cbn [ret].
    rewrite !advance_advance. reflexivity.
  - rewrite Hl. destruct latest as [last|]; [|discriminate].
    unfold bind at 1. rewrite print_then. cbn [ret].
    rewrite print_then. unfold bind. rewrite emit_run. cbn [ret].
    rewrite !advance_advance. reflexivity.
Qed.

Lemma last_or_none_in {A} (l : list A) x : last_or_none l = Some x -> In x l.
Proof.
  unfold last_or_none. destruct l as [|a l]; [discriminate|]. apply nth_error_In.
Qed.

Lemma main_to_wait (full : bool) (config : BackupConfig) (s : state) :
  signal_now s = false -> signal_now (advance s [] 1 1) = false ->
  returncode (procs s (nproc s)) = 0 -> returncode (procs s (1 + nproc s)) = 0 ->
  let new := new_snapshot_name config s in
  let latest : option string :=
    if full then None else last_or_none (listed config (stdout (procs s (nproc s)))) in
  exists c,
    get_compressor_by_name (compressor config) = Returned c
    /\ main full config s
       = try_except (after_start config new) on_interrupt
           (waiting s (before_wait config c full latest new) new).
Proof.
  intros H0 H1 Hl Hc new latest.
  destruct (get_compressor_by_name_returns (compressor config)) as (c & Ec).
  exists c. split; [exact Ec|].
  unfold main.
  set (s0 := with_backup_process (with_new_snapshot s None) None).
  change ((set_new_snapshot None;; set_backup_process None;; ?k) s) with (k s0).
  unfold try_except at 1. unfold bind at 1.
  rewrite get_snapshots_at by exact H0.
  change (returncode (procs s0 (nproc s0))) with (returncode (procs s (nproc s))).
  rewrite Hl. cbn [Z.eqb].
  unfold bind at 1. rewrite forced_full. rewrite advance_advance. cbn [Nat.add app].
  fold latest.
  unfold bind at 1. cbn [clock advance]. fold (new_snapshot_name config s0).
  change (new_snapshot_name config s0) with new.
  unfold bind at 1. unfold set_new_snapshot at 1. unfold bind at 1.
  rewrite create_snapshot_at by exact H1.
  cbn [procs nproc advance with_new_snapshot Nat.add].
  change (returncode (procs s0 (S (nproc s0)))) with (returncode (procs s (1 + nproc s))).
  rewrite Hc. cbn [Z.eqb].
  unfold bind at 1.
  assert (Hlatest : latest = None \/ truthy latest = true).
  { unfold latest. destruct full; [now left|].
    destruct (last_or_none _) as [x|] eqn:El; [right|now left].
    apply last_or_none_in in El. now apply listed_named in El. }
  rewrite (backup_snapshot_trace config c new latest _ Ec Hlatest).
  unfold bind at 1. unfold set_backup_process at 1.
  unfold try_except, after_start, waiting, before_wait, advance, with_backup_process,
    with_new_snapshot. subst s0.
  cbn [procs nproc sigterm ticks clock killpg_finds_no_process new_snapshot backup_process log
       with_backup_process with_new_snapshot Nat.add].
  list_norm. reflexivity.
Qed.

Lemma wait_at s :
  signal_now s = false ->
  wait s = (Returned (returncode (procs s (nproc s))),
            with_backup_process (advance s [Wait] 1 1)
                                (Some (Some (returncode (procs s (nproc s)))))).
Proof.
  intros H. unfold wait, bind. rewrite emit_run, tick_at by exact H.
  rewrite advance_advance. unfold reap, set_backup_process, ret.
  destruct s; reflexivity.
Qed.


Lemma after_wait_outcome config new s :
  sigterm s = None -> truthy (Some new) = true ->
  exists o s' evs,
    after_start config new s = (o, s')
    /\ log s' = log s ++ Wait :: evs
    /\ o <> Raised KeyboardInterrupt.
Proof.
  intros Hs Hn. unfold after_start. unfold bind at 1.
  rewrite wait_at by (unfold signal_now; now rewrite Hs).
  destruct (returncode (procs s (nproc s)) =? 0).
  - rewrite print_then.
    match goal with |- context [prune_snapshots config ?st] =>
      destruct (prune_snapshots_begins config st Hs) as (o & s' & e & evs & -> & L & _ & Ho) end.
    eexists _, _, _. split; [reflexivity|]. split.
    + rewrite L. cbn [log advance with_backup_process]. list_norm. reflexivity.
    + destruct Ho as [->|(rc & err & ->)]; discriminate.
  - rewrite print_then, destroy_snapshot_named by exact Hn. rewrite advance_advance.
    match goal with |- context [destroy_attempts _ _ _ _ _ ?st] =>
      destruct (destroy_attempts_returns new false 5 2 (range 5) st Hs)
        as (devs & dp & dt & -> & _) end.
    eexists _, _, _. split; [reflexivity|]. split; [|discriminate].
    cbn [log advance with_backup_process]. list_norm. reflexivity.
Qed.

(** X18.  In a backup run without a termination signal in which the listing
    and the creation of the snapshot succeed, what [main] does before it
    waits is: the listing, the message of a forced full backup if [--full]
    is given, [zfs snapshot] of the new name, the two messages of
    [backup_snapshot] and the start of one pipeline.  The pipeline is an
    incremental send from the last listed snapshot, stored under the new
    name with [-incremental.] and the extension of the configured
    compressor; it is a full send, stored with [-full.], when [--full] is
    given or no snapshot of the prefix is listed. *)
Theorem main_starts_pipeline (full : bool) (config : BackupConfig) (s : state)
  (Hsig : sigterm s = None)
  (Hl : returncode (procs s (nproc s)) = 0)
  (Hc : returncode (procs s (1 + nproc s)) = 0) :
  let new := new_snapshot_name config s in
  let latest : option string :=
    if full then None else last_or_none (listed config (stdout (procs s (nproc s)))) in
  exists c o s' evs,
    get_compressor_by_name (compressor config) = Returned c
    /\ main full config s = (o, s')
    /\ log s' = log s ++ before_wait config c full latest new ++ Wait :: evs.
Proof.
  intros new latest.
  destruct (main_to_wait full config s) as (c & Ec & ->); try assumption.
  1,2: unfold signal_now; cbn [sigterm advance]; now rewrite Hsig.
  exists c. fold new latest.
  destruct (after_wait_outcome config new (waiting s (before_wait config c full latest new) new))
    as (o & s' & evs & E & L & Ho); [exact Hsig|apply snapshot_name_truthy|].
  unfold try_except. rewrite E.
  exists o, s', evs. split; [exact Ec|]. split.
  - destruct o as [[]|e]; [reflexivity|]. destruct e; try reflexivity. congruence.
  - rewrite L. cbn [log waiting]. now rewrite <- app_assoc.
Qed.

Lemma main_starts_pipeline_witness :
  sigterm three_snapshots_state = None
  /\ returncode (procs three_snapshots_state (nproc three_snapshots_state)) = 0
  /\ returncode (procs three_snapshots_state (1 + nproc three_snapshots_state)) = 0
  /\ exists c o s' evs,
       get_compressor_by_name (compressor example_config) = Returned c
       /\ main false example_config three_snapshots_state = (o, s')
       /\ log s'
          = log three_snapshots_state
            ++ before_wait example_config c false
                 (last_or_none
                    (listed example_config
                       (stdout (procs three_snapshots_state (nproc three_snapshots_state)))))
                 (new_snapshot_name example_config three_snapshots_state)
            ++ Wait :: evs.
Proof.
  split; [reflexivity|]. split; [reflexivity|]. split; [reflexivity|].
  exact (main_starts_pipeline false example_config three_snapshots_state
           eq_refl eq_refl eq_refl).
Defined.

(** X19.  When the listing of the snapshots fails, the backup [main] raises
    the error of the listing after that one command: no snapshot is
    created, no pipeline is started and nothing is deleted. *)
Theorem main_listing_failure full config s
  (Hsig : sigterm s = None)
  (Hl : returncode (procs s (nproc s)) <> 0) :
  exists s',
    main full config s
    = (Raised (CalledProcessError (returncode (procs s (nproc s)))
                                  (stderr (procs s (nproc s)))), s')
    /\ log s' = log s ++ [Run (list_cmd config)]
    /\ nproc s' = S (nproc s).
Proof.
  unfold main.
  set (s0 := with_backup_process (with_new_snapshot s None) None).
  change ((set_new_snapshot None;; set_backup_process None;; ?k) s) with (k s0).
  unfold try_except, bind at 1.
  rewrite get_snapshots_failed by assumption.
  eexists. split; [reflexivity|]. split; reflexivity.
Qed.

Lemma main_listing_failure_witness :
  sigterm (failing_at 0) = None
  /\ returncode (procs (failing_at 0) (nproc (failing_at 0))) <> 0
  /\ exists s',
       main false example_config (failing_at 0)
       = (Raised (CalledProcessError
                    (returncode (procs (failing_at 0) (nproc (failing_at 0))))
                    (stderr (procs (failing_at 0) (nproc (failing_at 0))))), s')
       /\ log s' = log (failing_at 0) ++ [Run (list_cmd example_config)]
       /\ nproc s' = S (nproc (failing_at 0)).
Proof.
  assert (F : returncode (procs (failing_at 0) (nproc (failing_at 0))) <> 0)
    by (vm_compute; discriminate).
  split; [reflexivity|]. split; [exact F|].
  exact (main_listing_failure false example_config (failing_at 0) eq_refl F).
Defined.

(** X20.  When the listing succeeds and [zfs snapshot] fails, the backup
    [main] raises the error of [zfs snapshot] after these two commands: no
    pipeline is started, and no deletion of the snapshot is attempted. *)
Theorem main_create_failure full config s
  (Hsig : sigterm s = None)
  (Hl : returncode (procs s (nproc s)) = 0)
  (Hc : returncode (procs s (1 + nproc s)) <> 0) :
  exists s',
    main full config s
    = (Raised (CalledProcessError (returncode (procs s (1 + nproc s)))
                                  (stderr (procs s (1 + nproc s)))), s')
    /\ log s' = log s ++ Run (list_cmd config)
                :: only_if full [Print "Full backup forced by command-line argument."]
                ++ [Run ("zfs snapshot " ++ new_snapshot_name config s)]
    /\ nproc s' = S (S (nproc s)).
Proof.
  unfold main.
  set (s0 := with_backup_process (with_new_snapshot s None) None).
  change ((set_new_snapshot None;; set_backup_process None;; ?k) s) with (k s0).
  unfold try_except, bind at 1.
  rewrite get_snapshots_ok by assumption.
  unfold bind at 1. rewrite forced_full, advance_advance. cbn [Nat.add app].
  unfold bind at 1. cbn [clock advance]. fold (new_snapshot_name config s0).
  change (new_snapshot_name config s0) with (new_snapshot_name config s).
  unfold bind at 1. unfold set_new_snapshot at 1. unfold bind at 1.
  rewrite create_snapshot_failed by assumption.
  eexists. split; [reflexivity|]. split; [|reflexivity].
  cbn [log advance with_new_snapshot s0 with_backup_process]. list_norm. reflexivity.
Qed.

Lemma main_create_failure_witness :
  sigterm (failing_at 1) = None
  /\ returncode (procs (failing_at 1) (nproc (failing_at 1))) = 0
  /\ returncode (procs (failing_at 1) (1 + nproc (failing_at 1))) <> 0
  /\ exists s',
       main true example_config (failing_at 1)
       = (Raised (CalledProcessError
                    (returncode (procs (failing_at 1) (1 + nproc (failing_at 1))))
                    (stderr (procs (failing_at 1) (1 + nproc (failing_at 1))))), s')
       /\ log s' = log (failing_at 1) ++ Run (list_cmd example_config)
                   :: only_if true [Print "Full backup forced by command-line argument."]
                   ++ [Run ("zfs snapshot " ++ new_snapshot_name example_config (failing_at 1))]
       /\ nproc s' = S (S (nproc (failing_at 1))).
Proof.
  assert (F : returncode (procs (failing_at 1) (1 + nproc (failing_at 1))) <> 0)
    by (vm_compute; discriminate).
  split; [reflexivity|]. split; [reflexivity|]. split; [exact F|].
  exact (main_create_failure true example_config (failing_at 1) eq_refl eq_refl F).
Defined.



End BackupRun.

(** ** From backup.py to restore.py: the names of the remote objects *)

Section Names.
Import config backup restore compression.













End Names.
